(** * OrcaDetector: the dataset preparation pipeline of [database_parser.py]

    A shallow embedding of [src/orca_detector/database_parser.py] together
    with the parts of the Python runtime, NumPy and scikit-learn it relies
    on, followed by the properties of the pipeline.

    Conventions.
    - Python [int] is [Z]; Python [float] is an IEEE 754 binary64 value,
      represented by [spec_float] with the operations of the standard
      library's [SpecFloat] at precision 53 and [emax = 1024].
    - A raised exception is a [Raise e] result; [Ok v] is a normal return.
    - [str] is [string]; path names are taken to be ASCII.
    - A [dict] is an association list in insertion order (its keys are kept
      distinct by [dict_set]); the file system is a finite map from path
      names to file contents.
    - Collaborators that are not part of the file (audio decoding, the
      spectrogram transform, the directory walk, the random generator) are
      parameters of the functions that call them. *)

From Stdlib Require Import ZArith QArith Qround Lia List Bool Ascii String Permutation.
From Stdlib Require Import DecimalString DecimalZ Sorted.
From Stdlib Require Import Floats.SpecFloat.
From stdpp Require Import base option list gmap strings.

Local Open Scope Z_scope.

(** * Part I: definitions *)

(** ** The Python runtime *)

(** Exceptions raised by the code under study or by the library calls it makes. *)
Inductive exn : Set :=
  | ValueError
  | IndexError
  | ZeroDivisionError
  | OverflowError
  | RuntimeError
  | FileNotFoundError.

Inductive result (A : Type) : Type :=
  | Ok (a : A)
  | Raise (e : exn).
Arguments Ok {A} a.
Arguments Raise {A} e.

#[global] Instance result_ret : MRet result := fun A a => Ok a.
#[global] Instance result_bind : MBind result := fun A B f r =>
  match r with
  | Ok a => f a
  | Raise e => Raise e
  end.

Definition is_ok {A} (r : result A) : bool :=
  match r with Ok _ => true | Raise _ => false end.

(** *** binary64 floats *)

Definition prec : Z := 53.
Definition emax : Z := 1024.

Definition f64_mul : spec_float -> spec_float -> spec_float := SFmul prec emax.

(** The correctly rounded conversion of an integer ([PyLong_AsDouble] rounds
    to nearest, ties to even). *)
Definition f64_of_Z (z : Z) : spec_float := binary_normalize prec emax z 0 false.

Definition f64_zero : spec_float := S754_zero false.
Definition f64_one : spec_float := S754_finite false 4503599627370496 (-52).

(** The literals [.70] and [0.20]: the doubles nearest to 7/10 and 2/10
    ([0x1.6666666666666p-1] and [0x1.999999999999ap-3]). *)
Definition float_0_70 : spec_float := S754_finite false 6305039478318694 (-53).
Definition float_0_20 : spec_float := S754_finite false 7205759403792794 (-55).
Definition float_0_5 : spec_float := S754_finite false 4503599627370496 (-53).

(** *** Numbers: [int] and [float] *)

Inductive pynum : Set :=
  | PyInt (z : Z)
  | PyFloat (f : spec_float).

(** [float(z)]: an [int] too large for a double raises [OverflowError]. *)
Definition float_of_int (z : Z) : result spec_float :=
  match f64_of_Z z with
  | S754_infinity _ => Raise OverflowError
  | f => Ok f
  end.

(** [x * y]: [int * int] is exact; a mixed product converts the [int]
    operand to [float] first. *)
Definition py_mul (x y : pynum) : result pynum :=
  match x, y with
  | PyInt a, PyInt b => Ok (PyInt (a * b))
  | PyInt a, PyFloat g => f ← float_of_int a; Ok (PyFloat (f64_mul f g))
  | PyFloat f, PyInt b => g ← float_of_int b; Ok (PyFloat (f64_mul f g))
  | PyFloat f, PyFloat g => Ok (PyFloat (f64_mul f g))
  end.

(** [int(x)]: truncation toward zero; [int(nan)] raises [ValueError] and
    [int(inf)] raises [OverflowError]. *)
Definition int_of_float (f : spec_float) : result Z :=
  match f with
  | S754_zero _ => Ok 0
  | S754_finite s m e =>
      let a := Z.shiftl (Zpos m) e in Ok (if s then - a else a)
  | S754_infinity _ => Raise OverflowError
  | S754_nan => Raise ValueError
  end.

Definition py_int (x : pynum) : result Z :=
  match x with
  | PyInt z => Ok z
  | PyFloat f => int_of_float f
  end.

(** [sys.maxsize]: no list is longer. *)
Definition sys_maxsize : Z := 2 ^ 63 - 1.

(** *** Sequences *)

(** The index normalisation of a slice bound: negative bounds count from
    the end, and every bound is clamped to [0 .. len]. *)
Definition slice_bound (len : Z) (i : Z) : Z :=
  if i <? 0 then Z.max (i + len) 0 else Z.min i len.

(** [l[lo:hi]] with optional bounds and step 1. *)
Definition py_slice {A} (lo hi : option Z) (l : list A) : list A :=
  let len := Z.of_nat (length l) in
  let lo' := slice_bound len (default 0 lo) in
  let hi' := slice_bound len (default len hi) in
  take (Z.to_nat (hi' - lo')) (drop (Z.to_nat lo') l).

(** [del l[-1]]. *)
Definition del_last {A} (l : list A) : result (list A) :=
  match l with
  | [] => Raise IndexError
  | _ => Ok (removelast l)
  end.

(** *** Dictionaries, in insertion order *)

Section Dict.
Context {V : Type}.

Fixpoint dict_get (d : list (string * V)) (k : string) : option V :=
  match d with
  | [] => None
  | (k', v) :: d' => if String.eqb k' k then Some v else dict_get d' k
  end.

(** [d[k] = v] *)
Fixpoint dict_set (k : string) (v : V) (d : list (string * V)) : list (string * V) :=
  match d with
  | [] => [(k, v)]
  | (k', v') :: d' =>
      if String.eqb k' k then (k, v) :: d' else (k', v') :: dict_set k v d'
  end.

Definition dict_keys (d : list (string * V)) : list string := map fst d.
End Dict.

(** *** Strings and path names *)

Definition is_slash (c : ascii) : bool := Ascii.eqb c "/".
Definition is_dot (c : ascii) : bool := Ascii.eqb c ".".

Fixpoint str_forallb (p : ascii -> bool) (s : string) : bool :=
  match s with
  | EmptyString => true
  | String c s' => p c && str_forallb p s'
  end.

Fixpoint str_filter (p : ascii -> bool) (s : string) : string :=
  match s with
  | EmptyString => EmptyString
  | String c s' => if p c then String c (str_filter p s') else str_filter p s'
  end.

Fixpoint str_map (f : ascii -> ascii) (s : string) : string :=
  match s with
  | EmptyString => EmptyString
  | String c s' => String (f c) (str_map f s')
  end.

Definition str_is_empty (s : string) : bool :=
  match s with EmptyString => true | _ => false end.

(** [s.startswith('/')] and [s.endswith('/')] *)
Definition starts_with_slash (s : string) : bool :=
  match s with String c _ => is_slash c | EmptyString => false end.

Fixpoint ends_with_slash (s : string) : bool :=
  match s with
  | EmptyString => false
  | String c EmptyString => is_slash c
  | String _ s' => ends_with_slash s'
  end.

(** [(p[:i], p[i:])] for [i = p.rfind('/') + 1]. *)
Fixpoint split_last_sep (p : string) : string * string :=
  match p with
  | EmptyString => (EmptyString, EmptyString)
  | String c p' =>
      let '(h, t) := split_last_sep p' in
      if negb (str_is_empty h) then (String c h, t)
      else if is_slash c then (String c EmptyString, t)
      else (EmptyString, String c t)
  end.

(** [s.rstrip('/')] *)
Fixpoint rstrip_slash (s : string) : string :=
  match s with
  | EmptyString => EmptyString
  | String c s' =>
      let r := rstrip_slash s' in
      if str_is_empty r && is_slash c then EmptyString else String c r
  end.

(** [os.path.split] of [posixpath]. *)
Definition os_path_split (p : string) : string * string :=
  let '(head, tail) := split_last_sep p in
  if negb (str_is_empty head) && negb (str_forallb is_slash head)
  then (rstrip_slash head, tail)
  else (head, tail).

(** [os.path.join] of [posixpath], for two components. *)
Definition os_path_join (a b : string) : string :=
  if starts_with_slash b then b
  else if str_is_empty a || ends_with_slash a then (a ++ b)%string
  else (a ++ "/" ++ b)%string.

(** [(p[:i], p[i:])] for [i = p.rfind('.')], when [p] has a dot. *)
Fixpoint split_last_dot (p : string) : option (string * string) :=
  match p with
  | EmptyString => None
  | String c p' =>
      match split_last_dot p' with
      | Some (a, b) => Some (String c a, b)
      | None => if is_dot c then Some (EmptyString, p) else None
      end
  end.

(** [os.path.splitext(p)[1]]: the extension starts at the last dot of the
    last path component, unless only dots precede it there. *)
Definition splitext_ext (p : string) : string :=
  let '(_, base) := split_last_sep p in
  match split_last_dot base with
  | Some (stem, ext) => if str_forallb is_dot stem then EmptyString else ext
  | None => EmptyString
  end.

Definition in_range (lo hi : N) (c : ascii) : bool :=
  let n := N_of_ascii c in (N.leb lo n && N.leb n hi)%bool.

Definition is_upper (c : ascii) : bool := in_range 65 90 c.
Definition is_lower (c : ascii) : bool := in_range 97 122 c.
Definition is_digit (c : ascii) : bool := in_range 48 57 c.

(** [c.isalnum()] *)
Definition isalnum (c : ascii) : bool := is_upper c || is_lower c || is_digit c.

(** The class [\w] of [re]: alphanumeric characters and the underscore. *)
Definition is_word_char (c : ascii) : bool := isalnum c || Ascii.eqb c "_".

Definition to_lower (c : ascii) : ascii :=
  if is_upper c then ascii_of_N (N_of_ascii c + 32) else c.

(** [s.lower()] *)
Definition str_lower (s : string) : string := str_map to_lower s.

(** [re.sub('\W+', '', s)]: every maximal run of non-word characters is
    replaced by the empty string. *)
Definition re_sub_nonword (s : string) : string := str_filter is_word_char s.

(** [s.split(sep)] for a one-character separator. *)
Fixpoint str_split (sep : ascii) (s : string) : list string :=
  match s with
  | EmptyString => [EmptyString]
  | String c s' =>
      if Ascii.eqb c sep then EmptyString :: str_split sep s'
      else match str_split sep s' with
           | w :: ws => String c w :: ws
           | [] => [String c EmptyString]
           end
  end.

(** [str(z)] and [int(s)] for decimal numerals with an optional minus
    sign, the only spelling [str.format] produces for an [int]. *)
Definition str_of_int (z : Z) : string := NilZero.string_of_int (Z.to_int z).

Definition int_of_str (s : string) : result Z :=
  match NilZero.int_of_string s with
  | Some d => Ok (Z.of_int d)
  | None => Raise ValueError
  end.

(** ** NumPy *)

(** An [ndarray] of doubles: its shape and its elements in row-major order. *)
Record ndarray : Type := { shape : list nat; data : list spec_float }.

Definition size_of (sh : list nat) : nat := foldr Nat.mul 1%nat sh.

Definition wf_array (a : ndarray) : Prop := length (data a) = size_of (shape a).

(** [np.zeros(sh)] *)
Definition np_zeros (sh : list nat) : ndarray :=
  {| shape := sh; data := replicate (size_of sh) f64_zero |}.

(** [np.expand_dims(a, axis)] for [0 <= axis]; an axis beyond the new rank
    raises [AxisError], a subclass of [ValueError]. *)
Definition np_expand_dims (a : ndarray) (axis : nat) : result ndarray :=
  if (axis <=? length (shape a))%nat
  then Ok {| shape := take axis (shape a) ++ [1%nat] ++ drop axis (shape a);
             data := data a |}
  else Raise ValueError.

(** [n] consecutive blocks of [sz] elements. *)
Fixpoint chunks {A} (n sz : nat) (l : list A) : list (list A) :=
  match n with
  | O => []
  | S n' => take sz l :: chunks n' sz (drop sz l)
  end.

Fixpoint option_all {A} (l : list (option A)) : option (list A) :=
  match l with
  | [] => Some []
  | o :: l' =>
      match o, option_all l' with
      | Some x, Some xs => Some (x :: xs)
      | _, _ => None
      end
  end.

(** Broadcasting of the elements of an array of shape [src] to the shape
    [tgt] of the same rank: along each axis the lengths agree or the source
    has length 1 and is repeated. *)
Fixpoint broadcast_data (src tgt : list nat) (d : list spec_float)
  : option (list spec_float) :=
  match src, tgt with
  | [], [] => Some d
  | s :: src', t :: tgt' =>
      if (s =? t)%nat then
        parts ← option_all (map (broadcast_data src' tgt') (chunks s (size_of src') d));
        Some (concat parts)
      else if (s =? 1)%nat then
        part ← broadcast_data src' tgt' d;
        Some (concat (replicate t part))
      else None
  | _, _ => None
  end.

(** Assignment strips unit axes from the left of a source of higher rank
    than the destination. *)
Fixpoint strip_unit_axes (src : list nat) (rank : nat) : list nat :=
  match src with
  | 1%nat :: src' => if (rank <? length src)%nat then strip_unit_axes src' rank else src
  | _ => src
  end.

(** The elements written by [dst[...] = v] into a destination of shape
    [tgt]; shapes that cannot be broadcast raise [ValueError]. *)
Definition np_broadcast_to (tgt : list nat) (v : ndarray) : result (list spec_float) :=
  let src := strip_unit_axes (shape v) (length tgt) in
  if (length tgt <? length src)%nat then Raise ValueError
  else
    match broadcast_data (replicate (length tgt - length src) 1%nat ++ src) tgt (data v) with
    | Some d => Ok d
    | None => Raise ValueError
    end.

(** [x[0, :, ..., :] = v]: the first block along axis 0 is overwritten. *)
Definition np_set_first (x v : ndarray) : result ndarray :=
  match shape x with
  | [] => Raise IndexError
  | O :: _ => Raise IndexError
  | S _ :: rest =>
      d ← np_broadcast_to rest v;
      Ok {| shape := shape x; data := d ++ drop (size_of rest) (data x) |}
  end.

(** [np.arange(start, stop, step)] on integers: [ceil((stop - start) / step)]
    elements, none when that is negative; a zero step raises
    [ZeroDivisionError]. *)
Definition ceil_div (a b : Z) : Z := - ((- a) / b).

Definition np_arange (start stop step : Z) : result (list Z) :=
  if step =? 0 then Raise ZeroDivisionError
  else
    let len := ceil_div (stop - start) step in
    Ok (map (fun i : nat => start + Z.of_nat i * step) (seq 0 (Z.to_nat len))).

(** ** [label_files] *)

(** The suffix test of the list comprehension:
    [os.path.splitext(filename)[1].lower() == '.wav']. *)
Definition is_wav (filename : string) : bool :=
  String.eqb (str_lower (splitext_ext filename)) ".wav".

(** The label of a directory: the name of its parent, stripped by
    [re.sub('\W+', '', label)]. *)
Definition label_of_dirpath (dirpath : string) : string :=
  let '(path, year_folder) := os_path_split dirpath in
  let '(_, label) := os_path_split path in
  re_sub_nonword label.


(** [all_samples[label].extend(paths)] on a [defaultdict(list)]. *)
Definition dict_extend (label : string) (paths : list string)
  (d : list (string * list string)) : list (string * list string) :=
  dict_set label (default [] (dict_get d label) ++ paths) d.

(** One iteration of the loop over [os.walk(data_path)]. *)
Definition label_files_step (all_samples : list (string * list string))
  (entry : string * list string) : list (string * list string) :=
  let '(dirpath, filenames) := entry in
  let filenames := filter (fun f => is_wav f = true) filenames in
  match filenames with
  | [] => all_samples
  | _ =>
      dict_extend (label_of_dirpath dirpath)
        (map (os_path_join dirpath) filenames) all_samples
  end.

(** [label_files], given the sequence of [(dirpath, filenames)] that
    [os.walk(data_path)] yields. *)
Definition label_files (walk : list (string * list string))
  : list (string * list string) :=
  foldl label_files_step [] walk.

(** ** [_quantize_sample] and its callers *)

(** What [sf.SoundFile(file)] exposes of an audio file. *)
Record SoundFile : Set := { samplerate : Z; frames : Z }.

(** A segment reference; the source stores it as the pair
    [[label, 'file:start:frames']]. *)
Record SegmentRef : Set := {
  seg_label : string;
  seg_file : string;
  seg_start : Z;
  seg_frames : Z
}.

(** ['{}:{}:{}'.format(file, int(start), min_frames)] *)
Definition format_segment (file : string) (start min_frames : Z) : string :=
  (file ++ ":" ++ str_of_int start ++ ":" ++ str_of_int min_frames)%string.

Definition segment_entry (r : SegmentRef) : string * string :=
  (seg_label r, format_segment (seg_file r) (seg_start r) (seg_frames r)).

(** [int(sample_len * wav_file.samplerate)] *)
Definition min_frames_of (sample_len : pynum) (wav_file : SoundFile) : result Z :=
  x ← py_mul sample_len (PyInt (samplerate wav_file)); py_int x.

(** [_quantize_sample(label, file, sample_len, max_len)] for the opened
    file [wav_file]; [max_len] is not used. *)
Definition _quantize_sample (label file : string) (sample_len max_len : pynum)
  (wav_file : SoundFile) : result (list (string * string)) :=
  min_frames ← min_frames_of sample_len wav_file;
  if frames wav_file >? min_frames then
    file_parts ← np_arange 0 (frames wav_file) min_frames;
    let sample_list :=
      map (fun start => (label, format_segment file start min_frames)) file_parts in
    del_last sample_list
  else Ok [].

Fixpoint result_map {A B} (f : A -> result B) (l : list A) : result (list B) :=
  match l with
  | [] => Ok []
  | a :: l' => b ← f a; bs ← result_map f l'; Ok (b :: bs)
  end.

(** [_quantize_samples], with [sf.SoundFile] as [soundfile] and the two
    default arguments of [_quantize_sample] passed along. *)
Definition _quantize_samples (soundfile : string -> result SoundFile)
  (sample_len max_len : pynum) (samples : list (string * string))
  : result (list (string * string)) :=
  quantized_samples ←
    result_map (fun '(label, file) =>
                  wav_file ← soundfile file;
                  _quantize_sample label file sample_len max_len wav_file) samples;
  Ok (concat quantized_samples).

Definition _flatten_and_quantize_dataset (soundfile : string -> result SoundFile)
  (sample_len max_len : pynum) (dataset : list (string * list string))
  : result (list (string * string)) :=
  let dataset_flattened :=
    concat (map (fun '(label, files) => map (fun file => (label, file)) files) dataset) in
  _quantize_samples soundfile sample_len max_len dataset_flattened.

(** ** [encode_labels] and scikit-learn's [LabelEncoder] *)

Fixpoint insert_sorted (s : string) (l : list string) : list string :=
  match l with
  | [] => [s]
  | x :: l' => if String.leb s x then s :: l else x :: insert_sorted s l'
  end.

Fixpoint dedup_adjacent (l : list string) : list string :=
  match l with
  | [] => []
  | x :: l' =>
      match l' with
      | y :: _ => if String.eqb x y then dedup_adjacent l' else x :: dedup_adjacent l'
      | [] => [x]
      end
  end.

(** [np.unique]: the sorted distinct elements. *)
Definition np_unique (l : list string) : list string :=
  dedup_adjacent (foldr insert_sorted [] l).

(** A list in strictly increasing order. *)
Definition increasing (l : list string) : Prop :=
  StronglySorted (fun a b => String.ltb a b = true) l.

Record LabelEncoder : Set := { classes_ : list string }.

(** [LabelEncoder().fit(classes)] *)
Definition fit (classes : list string) : LabelEncoder :=
  {| classes_ := np_unique classes |}.

Fixpoint index_of (s : string) (l : list string) : option nat :=
  match l with
  | [] => None
  | x :: l' => if String.eqb x s then Some O else S <$> index_of s l'
  end.

(** [encoder.transform(labels)]: the position of each label in
    [classes_]; an unseen label raises [ValueError]. *)
Definition transform (encoder : LabelEncoder) (labels : list string) : result (list nat) :=
  result_map (fun y =>
                match index_of y (classes_ encoder) with
                | Some i => Ok i
                | None => Raise ValueError
                end) labels.

(** [encode_labels(labels, encoder)]; the matrix is the list of its rows. *)
Definition encode_labels (labels : list string) (encoder : LabelEncoder)
  : result (list (list spec_float)) :=
  encoded_labels ← transform encoder labels;
  let onehot_encoded_labels :=
    replicate (length encoded_labels) (replicate (length (classes_ encoder)) f64_zero) in
  Ok (foldl (fun m '(i, j) => alter (fun row => <[j := f64_one]> row) i m)
            onehot_encoded_labels
            (zip (seq 0 (length encoded_labels)) encoded_labels)).

(** [create_label_encoding(classes, save=False)] *)
Definition create_label_encoding (classes : list string) : LabelEncoder :=
  fit classes.

(** A string without a colon. *)
Definition colon_free (s : string) : bool :=
  str_forallb (fun c => negb (Ascii.eqb c ":")) s.

(** ** The file system *)

Inductive DatasetType : Set := TRAIN | VALIDATE | TEST.

Definition dataset_name (d : DatasetType) : string :=
  match d with
  | TRAIN => "TRAIN"
  | VALIDATE => "VALIDATE"
  | TEST => "TEST"
  end.

(** The file system holds pickled feature lists; a file is represented by
    the list [pickle.load] returns for it. *)
Abbreviation filesystem := (gmap string (list (string * ndarray))).

Definition os_path_exists (fs : filesystem) (p : string) : bool :=
  bool_decide (is_Some (fs !! p)).

Definition os_remove (p : string) (fs : filesystem) : filesystem := delete p fs.

(** [os.rename(src, dst)] for an existing [src]; a file at [dst] is replaced. *)
Definition os_rename (src dst : string) (fs : filesystem) : filesystem :=
  match fs !! src with
  | Some content => <[dst := content]> (delete src fs)
  | None => fs
  end.

Definition _backup_datafile (file_path suffix : string) (fs : filesystem)
  : filesystem :=
  if os_path_exists fs file_path
  then os_rename file_path (file_path ++ suffix)%string fs
  else fs.

(** ** Feature extraction *)

(** The collaborators of the extraction: the constants of [mel_params], the
    audio reader [sf.read], [np.mean(data, axis=1)], [resampy.resample] and
    the two functions of [mel_features].  [example_window_length] and
    [example_hop_length] stand for the values of
    [int(round(EXAMPLE_WINDOW_SECONDS * features_sample_rate))] and
    [int(round(EXAMPLE_HOP_SECONDS * features_sample_rate))]. *)
Class MelEnv : Type := {
  SAMPLE_RATE : Z;
  NUM_FRAMES : nat;
  NUM_BANDS : nat;
  example_window_length : Z;
  example_hop_length : Z;
  sf_read : string -> Z -> Z -> result (ndarray * Z);
  np_mean_axis1 : ndarray -> ndarray;
  resample : ndarray -> Z -> Z -> ndarray;
  log_mel_spectrogram : ndarray -> ndarray;
  frame : ndarray -> Z -> Z -> ndarray
}.

Section Features.
Context `{MelEnv}.

Definition _waveform_to_mel_spectrogram_segments (data : ndarray) (sample_rate : Z)
  : ndarray :=
  let data := if (1 <? length (shape data))%nat then np_mean_axis1 data else data in
  let data :=
    if negb (sample_rate =? SAMPLE_RATE) then resample data sample_rate SAMPLE_RATE
    else data in
  let log_mel := log_mel_spectrogram data in
  let log_mel_examples := frame log_mel example_window_length example_hop_length in
  log_mel_examples.

(** [l[i]] on the list returned by [str.split]. *)
Definition list_item (l : list string) (i : nat) : result string :=
  match l !! i with
  | Some s => Ok s
  | None => Raise IndexError
  end.

(** The three fields read back from a descriptor ['file:start:frames']. *)
Definition segment_fields (segment : string) : result (string * Z * Z) :=
  file ← list_item (str_split ":" segment) 0;
  start ← (s ← list_item (str_split ":" segment) 1; int_of_str s);
  frames ← (s ← list_item (str_split ":" segment) 2; int_of_str s);
  Ok (file, start, frames).

(** The framed spectrogram of a segment, before [np.expand_dims]. *)
Definition segment_spectrogram (segment : string) : result ndarray :=
  '(file, start, frames) ← segment_fields segment;
  '(data, sample_rate) ← sf_read file start frames;
  Ok (_waveform_to_mel_spectrogram_segments data sample_rate).

Definition extract_segment_features (segment : string) : result ndarray :=
  let X := np_zeros [1%nat; NUM_FRAMES; NUM_BANDS; 1%nat] in
  spectrogram ← segment_spectrogram segment;
  spectrogram ← np_expand_dims spectrogram 3;
  if (0 <? default O (head (shape spectrogram)))%nat
  then np_set_first X spectrogram
  else Ok X.

(** ** Persistence: [_extract_and_save_features] *)

Definition features_path (data_path : string) (d : DatasetType) : string :=
  os_path_join data_path (dataset_name d ++ ".features")%string.

(** [_extract_and_save_features(dataset, data_path, dataset_type)].  The
    result pairs the file system the call leaves behind with its outcome.
    [dataset_type = None] is the default argument, which the membership
    test rejects; a member of [DatasetType] passes it. *)
Definition _extract_and_save_features (dataset : list (string * string))
  (data_path : string) (dataset_type : option DatasetType) (fs : filesystem)
  : filesystem * result unit :=
  match dataset_type with
  | None => (fs, Raise ValueError)
  | Some dataset_type =>
      let filename := features_path data_path dataset_type in
      let fs := if os_path_exists fs filename then os_remove filename fs else fs in
      match result_map (fun segment =>
                          features ← extract_segment_features (snd segment);
                          Ok (fst segment, features)) dataset with
      | Raise e => (fs, Raise e)
      | Ok data =>
          let fs := _backup_datafile filename "-old" fs in
          (<[filename := data]> fs, Ok tt)
      end
  end.

(** [pickle.load] of a feature file, as [load_features] opens it. *)
Definition read_features (fs : filesystem) (data_path : string) (d : DatasetType)
  : option (list (string * ndarray)) :=
  fs !! features_path data_path d.
End Features.

(** The features of a dataset, as the loop of
    [_extract_and_save_features] collects them. *)
Definition extract_all `{MelEnv} (dataset : list (string * string))
  : result (list (string * ndarray)) :=
  result_map (fun segment =>
                features ← extract_segment_features (snd segment);
                Ok (fst segment, features)) dataset.

(** A small instance of the collaborators, for running the extraction:
    the reader returns [frames] samples, the spectrogram has two bands and
    one row for every two samples, and a window is two rows long. *)
Definition toy_frame (a : ndarray) (window_length hop_length : Z) : ndarray :=
  let rows := default O (head (shape a)) in
  let k := if (rows <? 2)%nat then O else S ((rows - 2) / 2) in
  {| shape := [k; 2%nat; 2%nat]; data := take (k * 4) (data a) |}.

Definition toy_env : MelEnv := {|
  SAMPLE_RATE := 16000;
  NUM_FRAMES := 2;
  NUM_BANDS := 2;
  example_window_length := 2;
  example_hop_length := 2;
  sf_read := fun file start frames =>
    Ok ({| shape := [Z.to_nat frames];
           data := replicate (Z.to_nat frames) (f64_of_Z (start + 1)) |}, 16000);
  np_mean_axis1 := fun a => a;
  resample := fun a _ _ => a;
  log_mel_spectrogram := fun a =>
    {| shape := [(length (data a) / 2)%nat; 2%nat]; data := data a |};
  frame := toy_frame
|}.

(** ** The stratified split *)

(** The generator behind the module [random]: [randbelow g n] is
    [_randbelow(n)], a draw from [0 .. n-1] and the next state. *)
Class RandomGen (G : Type) : Type := {
  randbelow : G -> nat -> nat * G;
  randbelow_lt : forall g n, (0 < n)%nat -> (fst (randbelow g n) < n)%nat
}.

(** A generator given by the sequence of its raw draws. *)
Definition tape_randbelow (g : list nat) (n : nat) : nat * list nat :=
  match g with
  | [] => (O, [])
  | x :: g' => ((x mod n)%nat, g')
  end.

Section Split.
Context {G : Type} `{RandomGen G}.

(** [x[i], x[j] = x[j], x[i]] *)
Definition swap {A} (x : list A) (i j : nat) : list A :=
  match x !! i, x !! j with
  | Some xi, Some xj => <[j := xi]> (<[i := xj]> x)
  | _, _ => x
  end.

(** The loop of [random.shuffle]:
    [for i in reversed(range(1, len(x))): j = randbelow(i + 1); swap]. *)
Fixpoint shuffle_from {A} (i : nat) (x : list A) (g : G) : list A * G :=
  match i with
  | O => (x, g)
  | S i' =>
      let '(j, g') := randbelow g (S i) in
      shuffle_from i' (swap x i j) g'
  end.

Definition random_shuffle {A} (x : list A) (g : G) : list A * G :=
  shuffle_from (length x - 1) x g.

Record datasets : Type := {
  ds_train : list (string * list string);
  ds_validate : list (string * list string);
  ds_test : list (string * list string)
}.

Definition empty_datasets : datasets :=
  {| ds_train := []; ds_validate := []; ds_test := [] |}.

(** [int((len(files) + 1) * percentage)] *)
Definition num_files (n : nat) (percentage : pynum) : result Z :=
  x ← py_mul (PyInt (Z.of_nat n + 1)) percentage; py_int x.

(** The body of the loop for one label that is kept. *)
Definition split_label (label : string) (files : list string)
  (train_percentage validate_percentage : pynum) (ds : datasets) (g : G)
  : result (datasets * G) :=
  let '(files, g) := random_shuffle files g in
  num_train_files ← num_files (length files) train_percentage;
  num_validate_files ← num_files (length files) validate_percentage;
  Ok ({| ds_train :=
           dict_set label (py_slice None (Some num_train_files) files) (ds_train ds);
         ds_validate :=
           dict_set label
             (py_slice (Some num_train_files)
                       (Some (num_train_files + num_validate_files)) files)
             (ds_validate ds);
         ds_test :=
           dict_set label
             (py_slice (Some (num_train_files + num_validate_files)) None files)
             (ds_test ds) |}, g).

(** [for label, files in all_samples.items(): ...] *)
Fixpoint split_items (items : list (string * list string))
  (train_percentage validate_percentage : pynum) (ds : datasets) (g : G)
  : result (datasets * G) :=
  match items with
  | [] => Ok (ds, g)
  | (label, files) :: rest =>
      if (length files <? 10)%nat
      then split_items rest train_percentage validate_percentage ds g
      else
        '(ds, g) ← split_label label files train_percentage validate_percentage ds g;
        split_items rest train_percentage validate_percentage ds g
  end.

(** The splitting stage of [read_files_and_extract_features]. *)
Definition stratified_split (all_samples : list (string * list string))
  (train_percentage validate_percentage : pynum) (g : G)
  : result (datasets * G) :=
  split_items all_samples train_percentage validate_percentage empty_datasets g.

(** The module state that matters to the split: the seed given to
    [np.random] and the state of the generator of [random]. *)
Record process : Type := { np_random_seed : Z; py_random : G }.

(** Loading the module: [import random] leaves the generator in the
    state [entropy] it seeded itself with from the operating system, and
    [np.random.seed(251)] seeds NumPy's generator. *)
Definition load_module (entropy : G) : process :=
  {| np_random_seed := 251; py_random := entropy |}.

(** The splitting stage as a run of the loaded module performs it, with
    the default [train_percentage=.70] and [validate_percentage=0.20]. *)
Definition run_split (p : process) (all_samples : list (string * list string))
  : result datasets :=
  '(ds, _) ← stratified_split all_samples (PyFloat float_0_70) (PyFloat float_0_20)
               (py_random p);
  Ok ds.
End Split.

(** ** The statements of the specification, as it words them *)

(** The duration of a file in seconds. *)
Definition duration (wav_file : SoundFile) : Q :=
  inject_Z (frames wav_file) / inject_Z (samplerate wav_file).

(** "The number of SegmentRefs returned equals [floor(D/S) - 1] if
    [floor(D/S) >= 1], else 0", for a duration [D] and a segment length [S]
    in seconds. *)
Definition spec_segment_count (D S : Q) : Z :=
  let k := Qfloor (D / S) in
  if 1 <=? k then k - 1 else 0.

(** "[trainCount = floor((n+1) * trainFraction)]", for a fraction [num/den]. *)
Definition spec_count (n : nat) (num den : Z) : Z :=
  (Z.of_nat n + 1) * num / den.

(** The lexicographic rank of a label among the classes. *)
Definition lex_rank (classes : list string) (s : string) : nat :=
  length (filter (fun c => String.ltb c s = true) classes).


(** The generator that replays a sequence of draws. *)
#[global] Instance tape_gen : RandomGen (list nat) := {|
  randbelow := tape_randbelow;
  randbelow_lt := ltac:(intros [|x g] n Hn; simpl;
                        [exact Hn | apply Nat.mod_upper_bound; lia])
|}.

(** The three entries of a label in the split. *)
Definition split_of (ds : datasets) (label : string)
  : option (list string) * option (list string) * option (list string) :=
  (dict_get (ds_train ds) label, dict_get (ds_validate ds) label,
   dict_get (ds_test ds) label).


(** Every list of the collection has a length a Python list can have. *)
Definition lists_fit (all_samples : list (string * list string)) : Prop :=
  forall label files, In (label, files) all_samples ->
    Z.of_nat (length files) <= sys_maxsize.

(** Both counts are defined and non-negative for every list that is kept. *)
Definition counts_defined (train_percentage validate_percentage : pynum)
  (all_samples : list (string * list string)) : Prop :=
  forall label files, In (label, files) all_samples -> (10 <= length files)%nat ->
    exists a b,
      num_files (length files) train_percentage = Ok a /\
      num_files (length files) validate_percentage = Ok b /\
      0 <= a /\ 0 <= b.


(** The three lists of a kept label are the slices [[:a]], [[a:a+b]] and
    [[a+b:]] of its shuffled list, for the counts [a] and [b] the code
    computes. *)
Definition sliced `{RandomGen G} (train_percentage validate_percentage : pynum)
  (all_samples : list (string * list string)) (ds : datasets) : Prop :=
  forall label files, In (label, files) all_samples -> (10 <= length files)%nat ->
    exists (gk : G) a b tr va te,
      let shuffled := (random_shuffle files gk).1 in
      let n := Z.of_nat (length files) in
      num_files (length files) train_percentage = Ok a /\
      num_files (length files) validate_percentage = Ok b /\
      split_of ds label = (Some tr, Some va, Some te) /\
      tr ++ va ++ te = shuffled /\
      tr = take (Z.to_nat a) shuffled /\
      va = take (Z.to_nat b) (drop (Z.to_nat a) shuffled) /\
      Z.of_nat (length tr) = Z.min a n /\
      Z.of_nat (length va) = Z.min b (n - Z.min a n) /\
      Z.of_nat (length te) = n - Z.min (a + b) n /\
      (a + b <= n ->
         Z.of_nat (length tr) = a /\ Z.of_nat (length va) = b /\
         Z.of_nat (length te) = n - a - b).

(** With the default percentages the two counts leave a file over, so
    every kept label has a test file. *)
Definition test_nonempty (all_samples : list (string * list string))
  (ds : datasets) : Prop :=
  forall label files, In (label, files) all_samples -> (10 <= length files)%nat ->
    exists a b te,
      num_files (length files) (PyFloat float_0_70) = Ok a /\
      num_files (length files) (PyFloat float_0_20) = Ok b /\
      a + b < Z.of_nat (length files) /\
      dict_get (ds_test ds) label = Some te /\
      Z.of_nat (length te) = Z.of_nat (length files) - (a + b) /\
      te <> [].

(** Sample collections used to run the split. *)
Definition ten_files : list string :=
  ["f0"; "f1"; "f2"; "f3"; "f4"; "f5"; "f6"; "f7"; "f8"; "f9"]%string.

Definition eleven_files : list string := ten_files ++ ["f10"%string].

(** [n] file names, [0.wav] to [(n-1).wav]. *)
Definition numbered_files (n : nat) : list string :=
  map (fun i : nat => (str_of_int (Z.of_nat i) ++ ".wav")%string) (seq 0 n).

Definition two_labels : list (string * list string) :=
  [("Orca", ten_files); ("Seal", ["s0"; "s1"])]%string.


(** ** [load_features] *)

(** What [load_features] raises: a built-in exception, or the bare
    [Exception] that asks for the data files to be generated first. *)
Inductive load_exn : Set :=
  | Builtin (e : exn)
  | DatafilesMissing.

Inductive outcome (A : Type) : Type :=
  | Returned (a : A)
  | Raised (e : load_exn).
Arguments Returned {A} a.
Arguments Raised {A} e.

(** [label in classes] *)
Definition label_in (label : string) (classes : list string) : bool :=
  existsb (String.eqb label) classes.

(** [np.array(arrays)] for a non-empty sequence of arrays: arrays of one
    shape are stacked along a new first axis; arrays of different shapes
    are refused ([ValueError] since NumPy 1.24). *)
Definition np_array (arrays : list ndarray) : result ndarray :=
  match arrays with
  | [] => Ok {| shape := [O]; data := [] |}
  | a :: _ =>
      if forallb (fun b => bool_decide (shape b = shape a)) arrays
      then Ok {| shape := length arrays :: shape a; data := concat (map data arrays) |}
      else Raise ValueError
  end.

(** [a[:, 0, :, :, :]]: five indices need five axes, and index 0 needs a
    second axis that is not empty. *)
Definition np_drop_axis1 (a : ndarray) : result ndarray :=
  match shape a with
  | n :: d1 :: rest =>
      if (length rest <? 3)%nat then Raise IndexError
      else if (d1 =? 0)%nat then Raise IndexError
      else Ok {| shape := n :: rest;
                 data := concat (map (take (size_of rest))
                                     (chunks n (d1 * size_of rest) (data a))) |}
  | _ => Raise IndexError
  end.

(** The list comprehension that drops the removed classes. *)
Definition remove_items (remove_classes : list string) (features : list (string * ndarray))
  : list (string * ndarray) :=
  filter (fun item => label_in (fst item) remove_classes = false) features.

(** The loop that renames the other classes, [item[0] = OTHER_CLASS]. *)
Definition rename_items (OTHER_CLASS : string) (other_classes : list string)
  (features : list (string * ndarray)) : list (string * ndarray) :=
  map (fun item => if label_in (fst item) other_classes then (OTHER_CLASS, snd item) else item)
      features.

(** [load_features(data_path, dataset_type, remove_classes, other_classes)];
    [OTHER_CLASS] is the constant of [orca_params].  The default
    [dataset_type = None] is no member of [DatasetType].  It returns the
    pair [(features, labels)]. *)
Definition load_features (OTHER_CLASS : string) (data_path : string)
  (dataset_type : option DatasetType) (remove_classes other_classes : list string)
  (fs : filesystem) : outcome (ndarray * list string) :=
  match dataset_type with
  | None => Raised (Builtin ValueError)
  | Some dataset_type =>
      if os_path_exists fs (features_path data_path dataset_type) then
        let features := default [] (read_features fs data_path dataset_type) in
        let features := remove_items remove_classes features in
        let features := rename_items OTHER_CLASS other_classes features in
        match features with
        | [] => Raised (Builtin ValueError)
        | _ =>
            let labels := map fst features in
            match (a ← np_array (map snd features); np_drop_axis1 a) with
            | Ok features => Returned (features, labels)
            | Raise e => Raised (Builtin e)
            end
        end
      else Raised DatafilesMissing
  end.

(** ** [read_files_and_extract_features] *)

(** [all(os.path.exists(... d.name + '.features') for d in DatasetType)] *)
Definition features_files_exist (fs : filesystem) (data_path : string) : bool :=
  forallb (fun d => os_path_exists fs (features_path data_path d)) [TRAIN; VALIDATE; TEST].

(** The last loop: each dataset is flattened, quantized, extracted and
    saved in turn; an exception ends the run where it is raised. *)
Fixpoint save_datasets `{MelEnv} (soundfile : string -> result SoundFile)
  (sample_len max_len : pynum) (data_path : string)
  (items : list (DatasetType * list (string * list string))) (fs : filesystem)
  : filesystem * result unit :=
  match items with
  | [] => (fs, Ok tt)
  | (dataset_type, contents) :: rest =>
      match _flatten_and_quantize_dataset soundfile sample_len max_len contents with
      | Raise e => (fs, Raise e)
      | Ok flattened_dataset =>
          match _extract_and_save_features flattened_dataset data_path
                  (Some dataset_type) fs with
          | (fs, Raise e) => (fs, Raise e)
          | (fs, Ok _) => save_datasets soundfile sample_len max_len data_path rest fs
          end
      end
  end.

(** [read_files_and_extract_features(overwrite, data_path, train_percentage,
    validate_percentage)].  [walk] is what [os.walk(orca_params.DATA_PATH)]
    yields, [soundfile] stands for [sf.SoundFile], and [sample_len] and
    [max_len] are the two defaults of [_quantize_sample].  The result is the
    file system the call leaves behind and either the state of the
    generator of [random] or the exception raised. *)
Definition read_files_and_extract_features `{MelEnv} {G : Type} `{RandomGen G}
  (overwrite : bool) (data_path : string) (train_percentage validate_percentage : pynum)
  (walk : list (string * list string)) (soundfile : string -> result SoundFile)
  (sample_len max_len : pynum) (g : G) (fs : filesystem)
  : filesystem * result G :=
  if negb overwrite && features_files_exist fs data_path then (fs, Ok g)
  else
    let all_samples := label_files walk in
    match stratified_split all_samples train_percentage validate_percentage g with
    | Raise e => (fs, Raise e)
    | Ok (datasets, g) =>
        match save_datasets soundfile sample_len max_len data_path
                [(TRAIN, ds_train datasets); (VALIDATE, ds_validate datasets);
                 (TEST, ds_test datasets)] fs with
        | (fs, Raise e) => (fs, Raise e)
        | (fs, Ok _) => (fs, Ok g)
        end
    end.

(** ** Further notions used in the statements *)

(** A list in non-decreasing order. *)
Definition nondecreasing (l : list string) : Prop :=
  StronglySorted (fun a b => String.leb a b = true) l.

(** A label is kept by the split when it has at least ten files. *)
Definition kept (entry : string * list string) : bool :=
  negb (length (snd entry) <? 10)%nat.

(** The number of audio files a walk lists. *)
Definition wav_count (walk : list (string * list string)) : nat :=
  list_sum (map (fun entry => length (filter (fun f => is_wav f = true) (snd entry))) walk).

(** The number of files a collection holds. *)
Definition file_count (all_samples : list (string * list string)) : nat :=
  list_sum (map (fun entry => length (snd entry)) all_samples).

(** An example of the fixed shape. *)
Definition canonical `{MelEnv} (x : ndarray) : Prop :=
  shape x = [1%nat; NUM_FRAMES; NUM_BANDS; 1%nat] /\
  length (data x) = (NUM_FRAMES * NUM_BANDS)%nat.

(** Where an indexed path comes from. *)
Definition indexed_from (walk : list (string * list string)) (label path : string) : Prop :=
  exists dirpath filenames f,
    In (dirpath, filenames) walk /\ In f filenames /\ is_wav f = true /\
    path = os_path_join dirpath f /\ label = label_of_dirpath dirpath.


(** [datasets[dataset_type]] *)
Definition split_contents (ds : datasets) (d : DatasetType) : list (string * list string) :=
  match d with
  | TRAIN => ds_train ds
  | VALIDATE => ds_validate ds
  | TEST => ds_test ds
  end.

(** A walk with one directory of ten audio files, and a reader for which
    every file has nine frames at one frame per second. *)
Definition toy_walk : list (string * list string) :=
  [("/data/Orca/calls"%string, numbered_files 10)].

Definition toy_soundfile (file : string) : result SoundFile :=
  Ok {| samplerate := 1; frames := 9 |}.
(** * Part II: properties *)

(** ** binary64 rounding

    Facts about [binary_round_aux], the rounding step shared by the
    conversion of an integer and by the product, in the range where the
    result is a normal number. *)

Lemma digits2_pos_log2 p : Zpos (digits2_pos p) = Z.log2 (Zpos p) + 1.
Proof.
  assert (Hs : forall q, digits2_pos q = Pos.size q).
  { induction q; simpl; congruence. }
  destruct p; simpl; rewrite ?Hs; lia.
Qed.

Lemma Zdigits2_log2 m : 0 < m -> Zdigits2 m = Z.log2 m + 1.
Proof. destruct m; try lia. intros _. apply digits2_pos_log2. Qed.

Lemma shr_1_m r : 0 <= shr_m r -> shr_m (shr_1 r) = shr_m r / 2.
Proof.
  destruct r as [m r s]; simpl. intros Hm.
  destruct m as [|p|p]; try lia; [reflexivity|].
  destruct p; simpl.
  - rewrite Pos2Z.inj_xI. apply Z.div_unique with 1; lia.
  - rewrite Pos2Z.inj_xO. apply Z.div_unique with 0; lia.
  - reflexivity.
Qed.

Lemma pow2_xO p : 2 ^ Zpos p~0 = 2 ^ Zpos p * 2 ^ Zpos p.
Proof.
  rewrite <- (Z.pow_add_r 2 (Zpos p) (Zpos p)) by lia.
  f_equal. lia.
Qed.

Lemma pow2_xI p : 2 ^ Zpos p~1 = 2 * (2 ^ Zpos p * 2 ^ Zpos p).
Proof.
  rewrite <- pow2_xO, <- (Z.pow_succ_r 2 (Zpos p~0)) by lia.
  f_equal.
Qed.

Lemma shr_m_iter p : forall r, 0 <= shr_m r ->
  shr_m (SpecFloat.iter_pos shr_1 p r) = shr_m r / 2 ^ Zpos p.
Proof.
  induction p as [p IH|p IH|]; intros r Hr; simpl SpecFloat.iter_pos.
  - assert (Hp : 0 < 2 ^ Zpos p) by (apply Z.pow_pos_nonneg; lia).
    assert (H1 : 0 <= shr_m (shr_1 r)) by (rewrite shr_1_m by assumption; apply Z.div_pos; lia).
    assert (H2 : 0 <= shr_m (SpecFloat.iter_pos shr_1 p (shr_1 r))).
    { rewrite IH by assumption. apply Z.div_pos; [assumption|lia]. }
    rewrite (IH _ H2), (IH _ H1), shr_1_m by assumption.
    rewrite pow2_xI, !Z.div_div by lia. reflexivity.
  - assert (Hp : 0 < 2 ^ Zpos p) by (apply Z.pow_pos_nonneg; lia).
    assert (H2 : 0 <= shr_m (SpecFloat.iter_pos shr_1 p r)).
    { rewrite IH by assumption. apply Z.div_pos; [assumption|lia]. }
    rewrite (IH _ H2), (IH _ Hr).
    rewrite pow2_xO, !Z.div_div by lia. reflexivity.
  - rewrite shr_1_m by assumption. reflexivity.
Qed.

Lemma round_nearest_even_bounds m l :
  m <= round_nearest_even m l <= m + 1.
Proof.
  destruct l as [|[| |]]; simpl; try lia.
  destruct (Z.even m); lia.
Qed.

Lemma log2_bounds M : 0 < M -> 2 ^ Z.log2 M <= M < 2 ^ (Z.log2 M + 1).
Proof. intros H. replace (Z.log2 M + 1) with (Z.succ (Z.log2 M)) by lia. apply Z.log2_spec; lia. Qed.

Lemma binary_round_aux_spec M E :
  0 < M -> 53 <= Z.log2 M + 1 -> -1074 <= E -> Z.log2 M + 1 + E <= 1023 ->
  exists m e,
    binary_round_aux 53 1024 false M E loc_Exact = S754_finite false m e /\
    2 ^ 52 <= Zpos m < 2 ^ 53 /\
    E + Z.log2 M - 52 <= e <= E + Z.log2 M - 51 /\
    M - 2 ^ (Z.log2 M - 52) < Zpos m * 2 ^ (e - E) <= M + 2 ^ (Z.log2 M - 52) /\
    (Z.log2 M = 52 -> Zpos m = M /\ e = E).
Proof.
  intros HM Hd HE Hmax.
  pose proof (log2_bounds M HM) as [Hlo Hhi].
  set (k := Z.log2 M - 52) in *.
  assert (Hk : 0 <= k) by (unfold k; lia).
  assert (Hpk : 0 < 2 ^ k) by (apply Z.pow_pos_nonneg; lia).
  assert (Hsplit : 2 ^ (Z.log2 M) = 2 ^ 52 * 2 ^ k).
  { rewrite <- Z.pow_add_r by lia. f_equal. unfold k. lia. }
  assert (Hsplit' : 2 ^ (Z.log2 M + 1) = 2 ^ 53 * 2 ^ k).
  { rewrite <- Z.pow_add_r by lia. f_equal. unfold k. lia. }
  unfold binary_round_aux. unfold shr_fexp at 1. unfold shr at 1. unfold fexp, emin.
  rewrite (Zdigits2_log2 M HM).
  replace (Z.max (Z.log2 M + 1 + E - 53) (3 - 1024 - 53) - E) with k by (unfold k; lia).
  simpl shr_record_of_loc.
  set (r0 := {| shr_m := M; shr_r := false; shr_s := false |}).
  (* first shift *)
  assert (H1 : exists r1, (match k with Z.pos p => (SpecFloat.iter_pos shr_1 p r0, E + k) | _ => (r0, E) end) = (r1, E + k)
            /\ shr_m r1 = M / 2 ^ k /\ (k = 0 -> r1 = r0)).
  { destruct k as [|p|p] eqn:Ek; try lia.
    - exists r0. rewrite Z.add_0_r. simpl. rewrite Z.div_1_r. auto.
    - exists (SpecFloat.iter_pos shr_1 p r0). split; [reflexivity|]. split; [|lia].
      apply shr_m_iter. simpl. lia. }
  destruct H1 as (r1 & -> & Hr1 & Hr1').
  set (q := M / 2 ^ k) in *.
  assert (Hq : 2 ^ 52 <= q < 2 ^ 53).
  { unfold q. split.
    - apply Z.div_le_lower_bound; lia.
    - apply Z.div_lt_upper_bound; lia. }
  assert (HqM : q * 2 ^ k <= M < (q + 1) * 2 ^ k).
  { unfold q. pose proof (Z.mul_div_le M (2^k) Hpk). 
    pose proof (Z.mul_succ_div_gt M (2^k) Hpk). lia. }
  set (m1 := round_nearest_even (shr_m r1) (loc_of_shr_record r1)).
  assert (Hm1 : q <= m1 <= q + 1).
  { unfold m1. rewrite <- Hr1. apply round_nearest_even_bounds. }
  assert (Hm1' : k = 0 -> m1 = M).
  { intros Hk0. unfold m1. rewrite (Hr1' Hk0). reflexivity. }
  assert (Hm1pos : 0 < m1) by lia.
  unfold shr_fexp, shr, fexp, emin.
  rewrite (Zdigits2_log2 m1 Hm1pos).
  destruct (Z.eq_dec m1 (2 ^ 53)) as [Heq|Hne].
  - (* rounding carried into the next binade *)
    assert (Hk0 : k <> 0).
    { intros Hk0. specialize (Hm1' Hk0). rewrite Hk0 in HqM.
      change (2 ^ 0) with 1 in HqM. lia. }
    exists 4503599627370496%positive, (E + k + 1).
    split; [|split; [lia|split; [unfold k; lia|split; [|unfold k in Hk0; lia]]]].
    + assert (Heq' : m1 = 9007199254740992) by (rewrite Heq; reflexivity).
      rewrite Heq'.
      replace (Z.log2 9007199254740992) with 53 by reflexivity.
      replace (Z.max (53 + 1 + (E + k) - 53) (3 - 1024 - 53) - (E + k)) with 1 by lia.
      cbv beta iota delta [shr_record_of_loc SpecFloat.iter_pos shr_1 shr_m].
      case Z.leb_spec; intros; [reflexivity|unfold k in *; lia].
    + replace (E + k + 1 - E) with (k + 1) by lia.
      rewrite Z.pow_add_r by lia.
      assert (Hp52 : Z.pos 4503599627370496 = 2 ^ 52) by reflexivity.
      rewrite Hp52. change (2 ^ 1) with 2.
      assert (Hq1 : q + 1 = 2 ^ 53) by lia.
      change (2 ^ 53) with (2 * 2 ^ 52) in Hq1.
      replace (2 ^ 52 * (2 ^ k * 2)) with ((q + 1) * 2 ^ k) by (rewrite Hq1; ring).
      lia.
  - assert (Hl : Z.log2 m1 = 52).
    { apply Z.log2_unique; lia. }
    destruct m1 as [|pm|pm] eqn:Em1; try lia.
    exists pm, (E + k).
    split; [|split; [lia|split; [unfold k; lia|split]]].
    + rewrite Hl.
      replace (Z.max (52 + 1 + (E + k) - 53) (3 - 1024 - 53) - (E + k)) with 0 by lia.
      cbv beta iota delta [shr_record_of_loc shr_m].
      case Z.leb_spec; intros; [reflexivity|unfold k in *; lia].
    + replace (E + k - E) with k by lia.
      destruct (Z.eq_dec k 0) as [Hk0|Hk0].
      * rewrite (Hm1' Hk0), Hk0. change (2 ^ 0) with 1. lia.
      * nia.
    + intros H52. assert (Hk0 : k = 0) by (unfold k; lia).
      rewrite (Hm1' Hk0). lia.
Qed.

(** ** Conversions between [int] and [float] *)

Lemma pos_iter_xO p d : Zpos (Pos.iter xO p d) = Zpos p * 2 ^ Zpos d.
Proof.
  induction d as [|d IH] using Pos.peano_ind.
  - simpl. lia.
  - rewrite Pos.iter_succ, Pos2Z.inj_xO, IH, Pos2Z.inj_succ, Z.pow_succ_r by lia. ring.
Qed.

(** The double nearest to an integer between 1 and [2^63]: a normal number
    that exceeds the integer by at most one part in [2^52]. *)
Lemma f64_of_Z_spec N :
  0 < N <= 2 ^ 63 ->
  exists m e,
    f64_of_Z N = S754_finite false m e /\
    2 ^ 52 <= Zpos m < 2 ^ 53 /\
    -52 <= e <= 12 /\
    Zpos m * 2 ^ (e + 52) <= (N + N / 2 ^ 52) * 2 ^ 52.
Proof.
  intros [HN Hmax].
  destruct N as [|p|p]; try lia.
  pose proof (log2_bounds (Zpos p) HN) as [Hlo Hhi].
  assert (Hl0 : 0 <= Z.log2 (Zpos p)) by apply Z.log2_nonneg.
  assert (Hl63 : Z.log2 (Zpos p) <= 63).
  { apply Z.log2_le_mono in Hmax. exact Hmax. }
  unfold f64_of_Z, binary_normalize, binary_round, shl_align, fexp, emin, prec, emax.
  rewrite digits2_pos_log2.
  replace (Z.max (Z.log2 (Z.pos p) + 1 + 0 - 53) (3 - 1024 - 53) - 0)
    with (Z.log2 (Zpos p) - 52) by lia.
  destruct (Z.log2 (Zpos p) - 52) as [|s|s] eqn:Es.
  - (* exactly 53 bits *)
    destruct (binary_round_aux_spec (Zpos p) 0) as (m & e & -> & Hm & He & _ & Hex); try lia.
    destruct Hex as [Hmp ->]; [lia|].
    exists m, 0. split; [reflexivity|]. split; [lia|]. split; [lia|].
    rewrite Hmp. assert (0 <= Zpos p / 2 ^ 52) by (apply Z.div_pos; lia). nia.
  - (* more than 53 bits: rounded *)
    destruct (binary_round_aux_spec (Zpos p) 0) as (m & e & -> & Hm & He & [_ Hv] & _); try lia.
    exists m, e. split; [reflexivity|]. split; [lia|]. split; [lia|].
    rewrite Z.sub_0_r in Hv.
    assert (Hdiv : 2 ^ (Z.log2 (Zpos p) - 52) <= Zpos p / 2 ^ 52).
    { apply Z.div_le_lower_bound; [lia|].
      rewrite <- Z.pow_add_r by lia.
      replace (52 + (Z.log2 (Z.pos p) - 52)) with (Z.log2 (Zpos p)) by lia. lia. }
    rewrite Z.pow_add_r by lia. nia.
  - (* fewer than 53 bits: exact, after alignment *)
    assert (HM : Zpos (Pos.iter xO p s) = Zpos p * 2 ^ Zpos s) by apply pos_iter_xO.
    assert (Hs : 0 < 2 ^ Zpos s) by (apply Z.pow_pos_nonneg; lia).
    assert (HlM : Z.log2 (Zpos (Pos.iter xO p s)) = 52).
    { rewrite HM, Z.log2_mul_pow2 by lia. lia. }
    destruct (binary_round_aux_spec (Zpos (Pos.iter xO p s)) (Z.log2 (Zpos p) + 1 + 0 - 53))
      as (m & e & Hr & Hm & He & _ & Hex); try lia.
    destruct (Hex HlM) as [Hmp ->].
    replace (Z.max (Z.log2 (Z.pos p) + 1 + 0 - 53) (3 - 1024 - 53))
      with (Z.log2 (Z.pos p) + 1 + 0 - 53) by lia.
    rewrite Hr.
    eexists _, _. split; [reflexivity|]. split; [lia|]. split; [lia|].
    rewrite Hmp, HM.
    replace (Z.log2 (Z.pos p) + 1 + 0 - 53 + 52) with (Z.log2 (Zpos p)) by lia.
    assert (H52 : 2 ^ 52 = 2 ^ Z.log2 (Zpos p) * 2 ^ Zpos s).
    { rewrite <- Z.pow_add_r by lia. f_equal. lia. }
    assert (Ht : 0 <= Zpos p / 2 ^ 52) by (apply Z.div_pos; lia).
    revert Ht. generalize (Zpos p / 2 ^ 52). intros t Ht.
    rewrite H52.
    assert (HL : 0 < 2 ^ Z.log2 (Zpos p)) by (apply Z.pow_pos_nonneg; lia).
    assert (HLS : 0 <= 2 ^ Z.log2 (Zpos p) * 2 ^ Zpos s) by lia.
    replace (Zpos p * 2 ^ Zpos s * 2 ^ Z.log2 (Zpos p))
      with (Zpos p * (2 ^ Z.log2 (Zpos p) * 2 ^ Zpos s)) by ring.
    apply Z.mul_le_mono_nonneg_r; lia.
Qed.

Lemma shiftl_scaled m e t :
  0 <= m -> 0 <= t -> 0 <= e + t -> Z.shiftl m e * 2 ^ t <= m * 2 ^ (e + t).
Proof.
  intros Hm Ht Het.
  destruct (Z.le_gt_cases 0 e) as [He|He].
  - rewrite Z.shiftl_mul_pow2, Z.pow_add_r by lia. lia.
  - rewrite Z.shiftl_div_pow2 by lia.
    replace t with (- e + (e + t)) at 1 by lia.
    rewrite Z.pow_add_r by lia.
    assert (Hp : 0 < 2 ^ (- e)) by (apply Z.pow_pos_nonneg; lia).
    assert (Hq : 0 <= 2 ^ (e + t)) by (apply Z.pow_nonneg; lia).
    pose proof (Z.mul_div_le m (2 ^ (- e)) Hp). nia.
Qed.

(** The truncated product of a normal double and a normal constant of
    magnitude at most 1. *)
Lemma int_of_mul_bound m e mc ec :
  2 ^ 52 <= Zpos m < 2 ^ 53 -> 2 ^ 52 <= Zpos mc < 2 ^ 53 ->
  -52 <= e <= 12 -> -1000 <= ec <= 0 ->
  exists a,
    int_of_float (f64_mul (S754_finite false m e) (S754_finite false mc ec)) = Ok a /\
    0 <= a /\
    a * 2 ^ (52 - ec) <= Zpos m * (Zpos mc + 2) * 2 ^ (e + 52).
Proof.
  intros Hm Hmc He Hec.
  unfold f64_mul, SFmul, prec, emax. simpl xorb.
  rewrite Pos2Z.inj_mul.
  set (M := Zpos m * Zpos mc).
  assert (HM : 2 ^ 104 <= M < 2 ^ 106).
  { unfold M. change (2 ^ 104) with (2 ^ 52 * 2 ^ 52).
    change (2 ^ 106) with (2 ^ 53 * 2 ^ 53). nia. }
  assert (Hl : 104 <= Z.log2 M <= 105).
  { split.
    - apply Z.log2_le_pow2; lia.
    - assert (Z.log2 M < 106) by (apply Z.log2_lt_pow2; lia). lia. }
  destruct (binary_round_aux_spec M (e + ec)) as (m' & e' & -> & Hm' & He' & [_ Hv] & _);
    try lia.
  simpl int_of_float.
  exists (Z.shiftl (Zpos m') e').
  split; [reflexivity|]. split; [apply Z.shiftl_nonneg; lia|].
  assert (Hu : 2 ^ (Z.log2 M - 52) <= 2 * Zpos m).
  { transitivity (2 ^ 53).
    - apply Z.pow_le_mono_r; lia.
    - change (2 ^ 53) with (2 * 2 ^ 52). lia. }
  assert (Hs := shiftl_scaled (Zpos m') e' (52 - ec)).
  etransitivity; [apply Hs; lia|].
  replace (e' + (52 - ec)) with ((e' - (e + ec)) + (e + 52)) by lia.
  rewrite Z.pow_add_r, Z.mul_assoc by lia.
  assert (0 <= 2 ^ (e + 52)) by (apply Z.pow_nonneg; lia).
  apply Z.mul_le_mono_nonneg_r; [assumption|].
  clear Hs. subst M. lia.
Qed.

(** [int((n + 1) * c)] for a list length [n] and a normal constant [c] of
    magnitude at most 1: it returns, and its value is bounded by the exact
    product up to the rounding of the two operations. *)
Lemma num_files_bound n mc ec :
  Z.of_nat n <= sys_maxsize ->
  2 ^ 52 <= Zpos mc < 2 ^ 53 -> -1000 <= ec <= 0 ->
  exists a,
    num_files n (PyFloat (S754_finite false mc ec)) = Ok a /\
    0 <= a /\
    a * 2 ^ (- ec) <=
      (Zpos mc + 2) * ((Z.of_nat n + 1) + (Z.of_nat n + 1) / 2 ^ 52).
Proof.
  intros Hn Hmc Hec. unfold sys_maxsize in Hn.
  destruct (f64_of_Z_spec (Z.of_nat n + 1)) as (m & e & Hf & Hm & He & Hv); [lia|].
  destruct (int_of_mul_bound m e mc ec Hm Hmc He Hec) as (a & Ha & Ha0 & Hab).
  exists a. split; [|split; [assumption|]].
  - unfold num_files, py_mul, float_of_int. rewrite Hf. simpl. exact Ha.
  - replace (52 - ec) with (52 + - ec) in Hab by lia.
    rewrite Z.pow_add_r in Hab by lia.
    assert (0 < 2 ^ (- ec)) by (apply Z.pow_pos_nonneg; lia).
    apply Z.mul_le_mono_pos_l with (p := 2 ^ 52); [lia|].
    nia.
Qed.

(** The two default percentages are the doubles nearest to 7/10 and 2/10. *)
Lemma default_percentages_nearest :
  Z.abs (10 * 6305039478318694 - 7 * 2 ^ 53) <= 5 /\
  Z.abs (10 * 7205759403792794 - 2 * 2 ^ 55) <= 5.
Proof. split; vm_compute; discriminate. Qed.

(** With the default percentages the two counts are defined and leave at
    least one file over, for every list of at least ten files. *)
Lemma default_counts n :
  (10 <= n)%nat -> Z.of_nat n <= sys_maxsize ->
  exists a b,
    num_files n (PyFloat float_0_70) = Ok a /\
    num_files n (PyFloat float_0_20) = Ok b /\
    0 <= a /\ 0 <= b /\ a + b < Z.of_nat n.
Proof.
  intros Hn Hmax.
  destruct (num_files_bound n 6305039478318694 (-53) Hmax) as (a & Ha & Ha0 & Hab);
    [lia|lia|].
  destruct (num_files_bound n 7205759403792794 (-55) Hmax) as (b & Hb & Hb0 & Hbb);
    [lia|lia|].
  exists a, b. repeat split; try assumption.
  change (- -53) with 53 in Hab. change (- -55) with 55 in Hbb.
  set (N := Z.of_nat n + 1) in *.
  assert (HN : 11 <= N) by (unfold N; lia).
  assert (Ht : 0 <= N / 2 ^ 52) by (apply Z.div_pos; lia).
  assert (Ht' : 2 ^ 52 * (N / 2 ^ 52) <= N) by (apply Z.mul_div_le; lia).
  replace (Z.of_nat n) with (N - 1) by (unfold N; lia).
  generalize dependent (N / 2 ^ 52). intros t Hab Hbb Ht Ht'.
  change (2 ^ 53) with 9007199254740992 in *.
  change (2 ^ 55) with 36028797018963968 in *.
  change (2 ^ 52) with 4503599627370496 in *.
  lia.
Qed.

(** ** Slices, dictionaries and the shuffle *)

Lemma take_min {A} (l : list A) (n : nat) : take (n `min` length l) l = take n l.
Proof.
  destruct (Nat.le_gt_cases n (length l)) as [Hn|Hn].
  - rewrite Nat.min_l by assumption. reflexivity.
  - rewrite Nat.min_r, !take_ge by lia. reflexivity.
Qed.

Lemma py_slice_to {A} (l : list A) (a : Z) :
  0 <= a -> py_slice None (Some a) l = take (Z.to_nat a) l.
Proof.
  intros Ha. unfold py_slice, slice_bound. simpl default.
  destruct (Z.ltb_spec a 0); [lia|]. destruct (Z.ltb_spec 0 0); [lia|].
  replace (Z.to_nat (Z.min 0 (Z.of_nat (length l)))) with 0%nat by lia.
  rewrite drop_0, <- (take_min l (Z.to_nat a)). f_equal. lia.
Qed.

Lemma py_slice_between {A} (l : list A) (a b : Z) :
  0 <= a -> 0 <= b ->
  py_slice (Some a) (Some (a + b)) l = take (Z.to_nat b) (drop (Z.to_nat a) l).
Proof.
  intros Ha Hb. unfold py_slice, slice_bound. simpl default.
  destruct (Z.ltb_spec a 0); [lia|]. destruct (Z.ltb_spec (a + b) 0); [lia|].
  destruct (Z.le_gt_cases (Z.of_nat (length l)) a) as [Hge|Hlt].
  - rewrite (drop_ge l (Z.to_nat a)) by lia.
    rewrite (drop_ge l (Z.to_nat (Z.min a (Z.of_nat (length l))))) by lia.
    rewrite !take_nil. reflexivity.
  - rewrite (Z.min_l a) by lia.
    rewrite <- (take_min (drop (Z.to_nat a) l) (Z.to_nat b)).
    f_equal. rewrite length_drop. lia.
Qed.

Lemma py_slice_from {A} (l : list A) (c : Z) :
  0 <= c -> py_slice (Some c) None l = drop (Z.to_nat c) l.
Proof.
  intros Hc. unfold py_slice, slice_bound. simpl default.
  destruct (Z.ltb_spec c 0); [lia|].
  destruct (Z.ltb_spec (Z.of_nat (length l)) 0); [lia|].
  rewrite Z.min_id.
  destruct (Z.le_gt_cases (Z.of_nat (length l)) c) as [Hge|Hlt].
  - rewrite (drop_ge l (Z.to_nat c)) by lia.
    rewrite (drop_ge l (Z.to_nat (Z.min c (Z.of_nat (length l))))) by lia.
    rewrite take_nil. reflexivity.
  - rewrite (Z.min_l c) by lia. rewrite take_ge; [reflexivity|].
    rewrite length_drop. lia.
Qed.

Lemma three_slices {A} (l : list A) (a b : nat) :
  take a l ++ take b (drop a l) ++ drop (a + b) l = l.
Proof.
  rewrite <- drop_drop, (take_drop b), (take_drop a). reflexivity.
Qed.

Section DictFacts.
Context {V : Type}.
Implicit Types (d : list (string * V)).

Lemma dict_get_set d k v k' :
  dict_get (dict_set k v d) k' = if String.eqb k k' then Some v else dict_get d k'.
Proof.
  induction d as [|[k0 v0] d IH]; simpl.
  - reflexivity.
  - destruct (String.eqb_spec k0 k) as [->|Hne]; simpl.
    + destruct (String.eqb k k'); reflexivity.
    + rewrite IH.
      destruct (String.eqb_spec k0 k') as [->|Hne'].
      * destruct (String.eqb_spec k k'); [congruence|reflexivity].
      * reflexivity.
Qed.

Lemma dict_get_set_eq d k v : dict_get (dict_set k v d) k = Some v.
Proof. rewrite dict_get_set, String.eqb_refl. reflexivity. Qed.

Lemma dict_get_set_ne d k v k' :
  k <> k' -> dict_get (dict_set k v d) k' = dict_get d k'.
Proof.
  intros Hne. rewrite dict_get_set.
  destruct (String.eqb_spec k k'); [contradiction|reflexivity].
Qed.

Lemma dict_keys_set d k v k' :
  In k' (dict_keys (dict_set k v d)) <-> k' = k \/ In k' (dict_keys d).
Proof.
  unfold dict_keys. induction d as [|[k0 v0] d IH]; simpl.
  - intuition.
  - destruct (String.eqb_spec k0 k) as [->|Hne]; simpl.
    + intuition.
    + rewrite IH. intuition.
Qed.

Lemma dict_keys_set_NoDup d k v :
  List.NoDup (dict_keys d) -> List.NoDup (dict_keys (dict_set k v d)).
Proof.
  unfold dict_keys. induction d as [|[k0 v0] d IH]; simpl; intros Hnd.
  - constructor; [intros []|constructor].
  - inversion Hnd as [|? ? Hnin Hnd']; subst.
    destruct (String.eqb_spec k0 k) as [->|Hne]; simpl.
    + constructor; assumption.
    + constructor; [|apply IH; assumption].
      intros Hin. apply (dict_keys_set d k v k0) in Hin.
      destruct Hin as [Hin|Hin]; [congruence|exact (Hnin Hin)].
Qed.


Lemma dict_get_None d k : ~ In k (dict_keys d) <-> dict_get d k = None.
Proof.
  unfold dict_keys. induction d as [|[k0 v0] d IH]; simpl.
  - intuition.
  - destruct (String.eqb_spec k0 k) as [->|Hne].
    + split; [intros Hn; exfalso; apply Hn; auto|discriminate].
    + rewrite <- IH. intuition.
Qed.
End DictFacts.

Section ShuffleFacts.
Context {G : Type} `{RandomGen G} {A : Type}.
Implicit Types (x : list A).

Lemma insert_Permutation x i y z :
  x !! i = Some z -> <[i := y]> x ≡ₚ y :: delete i x.
Proof.
  revert i. induction x as [|a x IH]; intros [|i] Hi; simpl in *; try discriminate.
  - reflexivity.
  - rewrite (IH i Hi). apply perm_swap.
Qed.

Lemma swap_Permutation x i j : swap x i j ≡ₚ x.
Proof.
  unfold swap.
  destruct (x !! i) as [xi|] eqn:Hi; [|reflexivity].
  destruct (x !! j) as [xj|] eqn:Hj; [|reflexivity].
  destruct (decide (i = j)) as [->|Hne].
  - assert (xi = xj) by congruence. subst xj.
    rewrite list_insert_insert_eq, list_insert_id by assumption. reflexivity.
  - assert (Hj' : <[i := xj]> x !! j = Some xj)
      by (rewrite list_lookup_insert_ne by assumption; assumption).
    assert (Hp : xj :: delete j (<[i := xj]> x) ≡ₚ xj :: delete i x).
    { transitivity (<[i := xj]> x).
      - symmetry. apply delete_Permutation. exact Hj'.
      - apply (insert_Permutation x i xj xi Hi). }
    apply Permutation_cons_inv in Hp.
    transitivity (xi :: delete j (<[i := xj]> x)).
    { apply (insert_Permutation _ j xi xj Hj'). }
    transitivity (xi :: delete i x).
    { apply perm_skip. exact Hp. }
    symmetry. apply delete_Permutation. exact Hi.
Qed.

Lemma shuffle_from_Permutation i : forall x g, (shuffle_from i x g).1 ≡ₚ x.
Proof.
  induction i as [|i IH]; intros x g; simpl.
  - reflexivity.
  - destruct (randbelow g (S (S i))) as [j g'].
    rewrite IH. apply swap_Permutation.
Qed.

Lemma random_shuffle_Permutation x g : (random_shuffle x g).1 ≡ₚ x.
Proof. apply shuffle_from_Permutation. Qed.

Lemma random_shuffle_length x g : length (random_shuffle x g).1 = length x.
Proof. apply Permutation_length, random_shuffle_Permutation. Qed.
End ShuffleFacts.

(** ** The stratified split *)

Section SplitFacts.
Context {G : Type} `{RandomGen G}.

Lemma split_label_spec label files tp vp ds g a b :
  num_files (length files) tp = Ok a ->
  num_files (length files) vp = Ok b ->
  0 <= a -> 0 <= b ->
  split_label label files tp vp ds g =
    let shuffled := (random_shuffle files g).1 in
    Ok ({| ds_train := dict_set label (take (Z.to_nat a) shuffled) (ds_train ds);
           ds_validate :=
             dict_set label (take (Z.to_nat b) (drop (Z.to_nat a) shuffled))
                      (ds_validate ds);
           ds_test := dict_set label (drop (Z.to_nat (a + b)) shuffled) (ds_test ds) |},
        (random_shuffle files g).2).
Proof.
  intros Ha Hb Ha0 Hb0. unfold split_label.
  pose proof (random_shuffle_length files g) as Hlen.
  destruct (random_shuffle files g) as [sh g']. simpl in *.
  rewrite Hlen, Ha. simpl. rewrite Hb. simpl.
  rewrite py_slice_to, py_slice_between, py_slice_from by lia.
  reflexivity.
Qed.

Lemma slices_lengths (sh : list string) (a b : Z) :
  0 <= a -> 0 <= b ->
  let n := Z.of_nat (length sh) in
  Z.of_nat (length (take (Z.to_nat a) sh)) = Z.min a n /\
  Z.of_nat (length (take (Z.to_nat b) (drop (Z.to_nat a) sh))) = Z.min b (n - Z.min a n) /\
  Z.of_nat (length (drop (Z.to_nat (a + b)) sh)) = n - Z.min (a + b) n.
Proof.
  intros Ha Hb n. unfold n.
  rewrite !length_take, !length_drop. lia.
Qed.

(** The loop over the labels: it returns once the counts are defined, the
    kept labels receive the three slices of their shuffled list, and the
    entries of every other label are left as they were. *)
Lemma split_items_spec tp vp items : forall ds g,
  List.NoDup (dict_keys items) ->
  counts_defined tp vp items ->
  exists ds' g',
    split_items items tp vp ds g = Ok (ds', g') /\
    sliced tp vp items ds' /\
    (forall label,
       (forall files, In (label, files) items -> (length files < 10)%nat) ->
       split_of ds' label = split_of ds label).
Proof.
  induction items as [|[label files] rest IH]; intros ds g Hnd Hc.
  - exists ds, g. split; [reflexivity|]. split; [|reflexivity].
    intros ? ? [].
  - simpl in Hnd. inversion Hnd as [|? ? Hnin Hnd']; subst.
    assert (Hc' : counts_defined tp vp rest).
    { intros l f Hin Hlen. apply (Hc l f); [right; assumption|assumption]. }
    simpl split_items.
    destruct (Nat.ltb_spec (length files) 10) as [Hlt|Hge].
    + destruct (IH ds g Hnd' Hc') as (ds' & g' & Hrun & Hsl & Hkeep).
      exists ds', g'. split; [assumption|]. split.
      * intros l f [[= -> ->]|Hin] Hlen; [lia|]. apply Hsl; assumption.
      * intros l Hl. apply Hkeep. intros f Hin. apply Hl. right. assumption.
    + destruct (Hc label files) as (a & b & Ha & Hb & Ha0 & Hb0); [left; reflexivity|lia|].
      rewrite (split_label_spec label files tp vp ds g a b Ha Hb Ha0 Hb0).
      cbv zeta. simpl mbind.
      set (sh := (random_shuffle files g).1).
      set (ds1 := {| ds_train := _; ds_validate := _; ds_test := _ |}).
      destruct (IH ds1 (random_shuffle files g).2 Hnd' Hc')
        as (ds' & g' & Hrun & Hsl & Hkeep).
      exists ds', g'. split; [assumption|]. split.
      * intros l f [[= -> ->]|Hin] Hlen; [|apply Hsl; assumption].
        assert (Hhere : split_of ds' l = split_of ds1 l).
        { apply Hkeep. intros f' Hin. exfalso. apply Hnin.
          apply in_map_iff. exists (l, f'). split; [reflexivity|assumption]. }
        pose proof (random_shuffle_length f g) as Hlen'. fold sh in Hlen'.
        destruct (slices_lengths sh a b Ha0 Hb0) as (L1 & L2 & L3).
        rewrite Hlen' in L1, L2, L3.
        exists g, a, b, (take (Z.to_nat a) sh),
          (take (Z.to_nat b) (drop (Z.to_nat a) sh)), (drop (Z.to_nat (a + b)) sh).
        cbv zeta. fold sh.
        split; [assumption|]. split; [assumption|]. split.
        { rewrite Hhere. unfold split_of, ds1. simpl.
          rewrite !dict_get_set_eq. reflexivity. }
        split.
        { rewrite Z2Nat.inj_add by lia. apply three_slices. }
        split; [reflexivity|]. split; [reflexivity|].
        split; [assumption|]. split; [assumption|]. split; [assumption|].
        intros Hab. rewrite L1, L2, L3. lia.
      * intros l Hl.
        assert (Hne : label <> l).
        { intros <-. specialize (Hl files (or_introl eq_refl)). lia. }
        rewrite Hkeep by (intros f Hin; apply Hl; right; assumption).
        unfold split_of, ds1. simpl.
        rewrite !dict_get_set_ne by assumption. reflexivity.
Qed.


Lemma default_counts_defined all_samples :
  lists_fit all_samples ->
  counts_defined (PyFloat float_0_70) (PyFloat float_0_20) all_samples.
Proof.
  intros Hfit label files Hin Hlen.
  destruct (default_counts (length files) Hlen (Hfit label files Hin))
    as (a & b & Ha & Hb & Ha0 & Hb0 & _).
  exists a, b. auto.
Qed.
End SplitFacts.

(** ** Quantization *)

Lemma ceil_div_cases a b :
  0 < b ->
  ceil_div a b = if a mod b =? 0 then a / b else a / b + 1.
Proof.
  intros Hb. unfold ceil_div.
  destruct (Z.eqb_spec (a mod b) 0) as [Hz|Hnz].
  - rewrite Z.div_opp_l_z by lia. lia.
  - rewrite Z.div_opp_l_nz by lia. lia.
Qed.

Lemma ceil_div_bounds a b :
  0 < b -> (ceil_div a b - 1) * b < a <= ceil_div a b * b.
Proof.
  intros Hb. rewrite ceil_div_cases by assumption.
  pose proof (Z.div_mod a b ltac:(lia)) as Hdm.
  pose proof (Z.mod_pos_bound a b Hb) as Hmod.
  destruct (Z.eqb_spec (a mod b) 0); nia.
Qed.

Lemma removelast_map_seq {B} (f : nat -> B) (c : nat) :
  removelast (map f (seq 0 (S c))) = map f (seq 0 c).
Proof.
  rewrite seq_S, map_app. simpl. apply removelast_last.
Qed.

(** What [_quantize_sample] returns for a positive segment length. *)
Lemma quantize_spec label file sample_len max_len wav m :
  min_frames_of sample_len wav = Ok m -> 0 < m ->
  _quantize_sample label file sample_len max_len wav =
    Ok (map (fun i : nat => (label, format_segment file (Z.of_nat i * m) m))
            (seq 0 (if frames wav >? m
                    then Z.to_nat (ceil_div (frames wav) m - 1) else 0%nat))).
Proof.
  intros Hm Hpos. unfold _quantize_sample. rewrite Hm. simpl.
  destruct (Z.gtb_spec (frames wav) m) as [Hgt|Hle]; [|reflexivity].
  unfold np_arange. destruct (Z.eqb_spec m 0) as [|_]; [lia|]. simpl.
  rewrite Z.sub_0_r.
  pose proof (ceil_div_bounds (frames wav) m Hpos) as Hb.
  assert (Hc : 2 <= ceil_div (frames wav) m) by nia.
  replace (Z.to_nat (ceil_div (frames wav) m))
    with (S (Z.to_nat (ceil_div (frames wav) m - 1))) by lia.
  rewrite map_map. unfold del_last.
  rewrite removelast_map_seq.
  rewrite seq_S, map_app. simpl.
  destruct (map _ _ ++ _) eqn:E; [|reflexivity].
  apply app_eq_nil in E as [_ E]. discriminate E.
Qed.

(** With a negative segment length nothing is returned. *)
Lemma quantize_negative label file sample_len max_len wav m l :
  min_frames_of sample_len wav = Ok m -> m <= 0 ->
  _quantize_sample label file sample_len max_len wav = Ok l -> l = [].
Proof.
  intros Hm Hneg. unfold _quantize_sample. rewrite Hm. simpl.
  destruct (Z.gtb_spec (frames wav) m) as [Hgt|Hle]; [|congruence].
  unfold np_arange. destruct (Z.eqb_spec m 0) as [|Hnz]; [discriminate|]. simpl.
  rewrite Z.sub_0_r.
  assert (Hlen : ceil_div (frames wav) m <= 1).
  { unfold ceil_div.
    pose proof (Z.div_mod (- frames wav) m Hnz) as Hdm.
    pose proof (Z.mod_neg_bound (- frames wav) m ltac:(lia)) as Hmod. nia. }
  destruct (Z.to_nat (ceil_div (frames wav) m)) as [|[|c]] eqn:E; try lia.
  - simpl. discriminate.
  - simpl. congruence.
Qed.

(** ** Arrays and the feature files *)

Lemma chunks_concat {A} (n sz : nat) (l : list A) :
  length l = (n * sz)%nat -> concat (chunks n sz l) = l.
Proof.
  revert l. induction n as [|n IH]; intros l Hl; simpl in *.
  - destruct l; [reflexivity|discriminate Hl].
  - rewrite IH; [apply take_drop|]. rewrite length_drop. lia.
Qed.

Lemma chunks_lengths {A} (n sz : nat) (l : list A) :
  length l = (n * sz)%nat -> Forall (fun c => length c = sz) (chunks n sz l).
Proof.
  revert l. induction n as [|n IH]; intros l Hl; simpl in *.
  - constructor.
  - constructor.
    + rewrite length_take. lia.
    + apply IH. rewrite length_drop. lia.
Qed.

Lemma option_all_Some {A} (f : A -> option A) (l : list A) :
  Forall (fun x => f x = Some x) l -> option_all (map f l) = Some l.
Proof.
  induction 1 as [|x l Hx _ IH]; simpl; [reflexivity|].
  rewrite Hx, IH. reflexivity.
Qed.

(** An array is broadcast to its own shape unchanged. *)
Lemma broadcast_data_same sh : forall d,
  length d = size_of sh -> broadcast_data sh sh d = Some d.
Proof.
  induction sh as [|s sh IH]; intros d Hd; simpl.
  - reflexivity.
  - rewrite Nat.eqb_refl. simpl in Hd.
    rewrite (option_all_Some (broadcast_data sh sh)).
    + simpl. rewrite chunks_concat by assumption. reflexivity.
    + eapply Forall_impl; [apply chunks_lengths; eassumption|].
      intros c Hc. apply IH. exact Hc.
Qed.

Section FeatureFacts.
Context `{MelEnv}.

Lemma size_of_example : size_of [NUM_FRAMES; NUM_BANDS; 1%nat] = (NUM_FRAMES * NUM_BANDS)%nat.
Proof. simpl. lia. Qed.

(** The assignment [X[0, :, :, :] = spectrogram] for one window of the
    shape of [X]. *)
Lemma set_first_one_window d :
  length d = (NUM_FRAMES * NUM_BANDS)%nat ->
  np_set_first (np_zeros [1%nat; NUM_FRAMES; NUM_BANDS; 1%nat])
    {| shape := [1%nat; NUM_FRAMES; NUM_BANDS; 1%nat]; data := d |} =
  Ok {| shape := [1%nat; NUM_FRAMES; NUM_BANDS; 1%nat]; data := d |}.
Proof.
  intros Hd. unfold np_set_first, np_broadcast_to. cbn [shape np_zeros data].
  assert (Hstrip : strip_unit_axes [1%nat; NUM_FRAMES; NUM_BANDS; 1%nat] 3 =
                   [NUM_FRAMES; NUM_BANDS; 1%nat]).
  { cbn [strip_unit_axes length Nat.ltb Nat.leb].
    destruct NUM_FRAMES as [|[|n]]; reflexivity. }
  cbn [length]. rewrite Hstrip. cbn [length Nat.ltb Nat.leb Nat.sub replicate app].
  rewrite broadcast_data_same by (rewrite size_of_example; exact Hd).
  cbn [mbind result_bind]. f_equal. f_equal.
  rewrite drop_ge; [apply app_nil_r|].
  rewrite length_replicate. simpl. lia.
Qed.

(** The same assignment for two or more windows. *)
Lemma set_first_many_windows k w b d :
  (2 <= k)%nat ->
  np_set_first (np_zeros [1%nat; NUM_FRAMES; NUM_BANDS; 1%nat])
    {| shape := [k; w; b; 1%nat]; data := d |} = Raise ValueError.
Proof.
  intros Hk. unfold np_set_first, np_broadcast_to. cbn [shape np_zeros data].
  destruct k as [|[|k]]; try lia. reflexivity.
Qed.

Lemma extract_from_spectrogram segment ex :
  segment_spectrogram segment = Ok ex ->
  extract_segment_features segment =
    (spectrogram ← np_expand_dims ex 3;
     if (0 <? default O (head (shape spectrogram)))%nat
     then np_set_first (np_zeros [1%nat; NUM_FRAMES; NUM_BANDS; 1%nat]) spectrogram
     else Ok (np_zeros [1%nat; NUM_FRAMES; NUM_BANDS; 1%nat])).
Proof. intros Hs. unfold extract_segment_features. rewrite Hs. reflexivity. Qed.

(** What a successful save leaves behind: the new file in place of the
    old one, and nothing else changed. *)
Lemma save_spec dataset data_path d (fs : filesystem) data :
  extract_all dataset = Ok data ->
  _extract_and_save_features dataset data_path (Some d) fs =
    (<[features_path data_path d := data]> (delete (features_path data_path d) fs), Ok tt).
Proof.
  intros Hdata. unfold _extract_and_save_features.
  fold (extract_all dataset). rewrite Hdata.
  set (filename := features_path data_path d).
  assert (Hfs : (if os_path_exists fs filename then os_remove filename fs else fs) =
                delete filename fs).
  { unfold os_path_exists, os_remove. case_bool_decide as Hex; [reflexivity|].
    symmetry. apply delete_id. destruct (fs !! filename) eqn:E; [|reflexivity].
    exfalso. apply Hex. eauto. }
  rewrite Hfs. unfold _backup_datafile, os_path_exists.
  case_bool_decide as Hex; [|reflexivity].
  rewrite lookup_delete_eq in Hex. destruct Hex as [? Hex]. discriminate Hex.
Qed.
End FeatureFacts.

Lemma append_suffix_ne (s : string) : s <> (s ++ "-old")%string.
Proof.
  induction s as [|c s IH]; simpl; [discriminate|].
  intros Heq. injection Heq as Heq. exact (IH Heq).
Qed.

(** ** Labels *)











(** ** Claim C6 *)



(** The underscore is a word character, so it stays in a label. *)
Lemma label_keeps_underscore :
  label_of_dirpath "/data/Killer_Whale (1)/1975" = "Killer_Whale1"%string /\
  isalnum "_" = false.
Proof. split; vm_compute; reflexivity. Qed.

(** ** The order of strings and the label encoder *)

Lemma ascii_compare_refl (a : ascii) : Ascii.compare a a = Eq.
Proof. unfold Ascii.compare. apply N.compare_refl. Qed.

Lemma ascii_compare_lt_trans (a b c : ascii) :
  Ascii.compare a b = Lt -> Ascii.compare b c = Lt -> Ascii.compare a c = Lt.
Proof.
  unfold Ascii.compare. rewrite !N.compare_lt_iff. apply N.lt_trans.
Qed.

Lemma string_compare_refl (s : string) : String.compare s s = Eq.
Proof.
  induction s as [|c s IH]; simpl; [reflexivity|].
  rewrite ascii_compare_refl. exact IH.
Qed.

Lemma string_compare_lt_trans (a : string) : forall b c,
  String.compare a b = Lt -> String.compare b c = Lt -> String.compare a c = Lt.
Proof.
  induction a as [|x a IH]; intros [|y b] [|z c]; simpl; try congruence.
  destruct (Ascii.compare x y) eqn:Exy; try discriminate;
    destruct (Ascii.compare y z) eqn:Eyz; try discriminate; intros Hab Hbc.
  - apply Ascii.compare_eq_iff in Exy, Eyz. subst. rewrite ascii_compare_refl.
    eapply IH; eassumption.
  - apply Ascii.compare_eq_iff in Exy. subst. rewrite Eyz. reflexivity.
  - apply Ascii.compare_eq_iff in Eyz. subst. rewrite Exy. reflexivity.
  - rewrite (ascii_compare_lt_trans x y z Exy Eyz). reflexivity.
Qed.

Lemma ltb_trans (a b c : string) :
  String.ltb a b = true -> String.ltb b c = true -> String.ltb a c = true.
Proof.
  unfold String.ltb.
  destruct (String.compare a b) eqn:Eab; try discriminate.
  destruct (String.compare b c) eqn:Ebc; try discriminate.
  rewrite (string_compare_lt_trans a b c Eab Ebc). reflexivity.
Qed.

Lemma ltb_irrefl (a : string) : String.ltb a a = false.
Proof. unfold String.ltb. rewrite string_compare_refl. reflexivity. Qed.

Lemma ltb_asym (a b : string) : String.ltb a b = true -> String.ltb b a = false.
Proof.
  intros Hab. destruct (String.ltb b a) eqn:Hba; [|reflexivity].
  rewrite <- (ltb_irrefl a). symmetry. eapply ltb_trans; eassumption.
Qed.

Lemma leb_ltb (a b : string) : String.leb a b = true -> a <> b -> String.ltb a b = true.
Proof.
  unfold String.leb, String.ltb.
  destruct (String.compare a b) eqn:E; try discriminate; [|reflexivity].
  apply String.compare_eq_iff in E. congruence.
Qed.

Lemma not_leb_ltb (a b : string) : String.leb a b = false -> String.ltb b a = true.
Proof.
  unfold String.leb, String.ltb. rewrite (String.compare_antisym b a).
  destruct (String.compare a b); simpl; congruence.
Qed.

Lemma insert_sorted_Permutation s l : insert_sorted s l ≡ₚ s :: l.
Proof.
  induction l as [|x l IH]; simpl; [reflexivity|].
  destruct (String.leb s x); [reflexivity|].
  rewrite IH. apply perm_swap.
Qed.

Lemma sort_Permutation l : foldr insert_sorted [] l ≡ₚ l.
Proof.
  induction l as [|x l IH]; simpl; [reflexivity|].
  rewrite insert_sorted_Permutation, IH. reflexivity.
Qed.














(** ** Segment descriptors

    The descriptor that [_quantize_sample] writes is read back field by
    field by [extract_segment_features], as long as the file name has no
    colon of its own. *)

Lemma str_split_app (sep : ascii) (a rest : string) :
  str_forallb (fun c => negb (Ascii.eqb c sep)) a = true ->
  str_split sep (a ++ String sep rest) = a :: str_split sep rest.
Proof.
  induction a as [|c a IH]; simpl; intros Ha.
  - rewrite Ascii.eqb_refl. reflexivity.
  - apply andb_prop in Ha as [Hc Ha].
    apply negb_true_iff in Hc. rewrite Hc, (IH Ha). reflexivity.
Qed.

Lemma str_split_free (sep : ascii) (a : string) :
  str_forallb (fun c => negb (Ascii.eqb c sep)) a = true ->
  str_split sep a = [a].
Proof.
  induction a as [|c a IH]; simpl; intros Ha; [reflexivity|].
  apply andb_prop in Ha as [Hc Ha].
  apply negb_true_iff in Hc. rewrite Hc, (IH Ha). reflexivity.
Qed.

Lemma uint_colon_free (d : Decimal.uint) : colon_free (NilEmpty.string_of_uint d) = true.
Proof. induction d; simpl; try reflexivity; exact IHd. Qed.

Lemma str_of_int_colon_free (z : Z) : colon_free (str_of_int z) = true.
Proof.
  unfold str_of_int, NilZero.string_of_int, NilZero.string_of_uint.
  destruct (Z.to_int z) as [d|d]; destruct d; try reflexivity;
    try apply (uint_colon_free (_ d)); simpl; apply (uint_colon_free d).
Qed.

Lemma int_of_str_of_int (z : Z) : int_of_str (str_of_int z) = Ok z.
Proof.
  unfold int_of_str, str_of_int.
  rewrite NilZero.isi.
  - rewrite DecimalZ.of_to. reflexivity.
  - destruct z; simpl; try discriminate.
    intros [= Hp]. exact (DecimalPos.Unsigned.to_uint_nonnil _ Hp).
  - destruct z; simpl; try discriminate.
    intros [= Hp]. exact (DecimalPos.Unsigned.to_uint_nonnil _ Hp).
Qed.

Lemma segment_fields_format (file : string) (start min_frames : Z) :
  colon_free file = true ->
  segment_fields (format_segment file start min_frames) = Ok (file, start, min_frames).
Proof.
  intros Hfile. unfold segment_fields, format_segment.
  change (file ++ ":" ++ str_of_int start ++ ":" ++ str_of_int min_frames)%string
    with (file ++ String ":" (str_of_int start ++ String ":" (str_of_int min_frames)))%string.
  rewrite (str_split_app ":" file _ Hfile).
  rewrite (str_split_app ":" (str_of_int start) _ (str_of_int_colon_free start)).
  rewrite (str_split_free ":" _ (str_of_int_colon_free min_frames)).
  unfold list_item. cbn [lookup list_lookup mbind result_bind].
  rewrite !int_of_str_of_int. reflexivity.
Qed.

(** A colon in the file name shifts the fields. *)
Lemma segment_fields_colon :
  segment_fields (format_segment "rec:1.wav" 0 32000) = Raise ValueError.
Proof. vm_compute. reflexivity. Qed.

(** ** The split: claims C3, C4, C5 and C10 *)


Lemma two_labels_NoDup : List.NoDup (dict_keys two_labels).
Proof.
  repeat constructor; simpl; intros Hin;
    repeat (destruct Hin as [Hin|Hin]; [discriminate Hin|]); exact Hin.
Defined.

Lemma two_labels_fit : lists_fit two_labels.
Proof.
  intros label files Hin.
  repeat (destruct Hin as [Hin|Hin];
          [injection Hin as <- <-; vm_compute; discriminate|]).
  destruct Hin.
Defined.


(** C4, as the code has it.  For every label with [n >= 10] files and
    percentages for which the counts [a = int((n + 1) * train_percentage)]
    and [b = int((n + 1) * validate_percentage)] are defined and not
    negative, TRAIN, VALIDATE and TEST are the contiguous slices [[:a]],
    [[a:a+b]] and [[a+b:]] of the shuffled list, in this order and without
    overlap: TRAIN has [min a n] files, VALIDATE [min b (n - min a n)] and
    TEST the rest; when [a + b <= n] TRAIN has exactly [a] files and
    VALIDATE exactly [b]. *)
Theorem split_slices_shuffled_list {G : Type} `{RandomGen G}
  (all_samples : list (string * list string))
  (train_percentage validate_percentage : pynum) (g : G) :
  List.NoDup (dict_keys all_samples) ->
  counts_defined train_percentage validate_percentage all_samples ->
  exists ds g',
    stratified_split all_samples train_percentage validate_percentage g = Ok (ds, g') /\
    sliced train_percentage validate_percentage all_samples ds.
Proof.
  intros Hnd Hc.
  destruct (split_items_spec train_percentage validate_percentage all_samples
              empty_datasets g Hnd Hc) as (ds & g' & Hrun & Hsl & _).
  exists ds, g'. split; assumption.
Qed.

Lemma split_slices_shuffled_list_witness :
  exists ds g',
    stratified_split two_labels (PyFloat float_0_5) (PyFloat float_0_20)
      [2; 7; 1; 8]%nat = Ok (ds, g') /\
    sliced (PyFloat float_0_5) (PyFloat float_0_20) two_labels ds.
Proof.
  apply (split_slices_shuffled_list two_labels (PyFloat float_0_5) (PyFloat float_0_20)
           [2; 7; 1; 8]%nat two_labels_NoDup).
  intros label files Hin Hlen.
  destruct Hin as [Hin|[Hin|[]]]; injection Hin as <- <-.
  - exists 5, 2. vm_compute. repeat split; discriminate.
  - vm_compute in Hlen. lia.
Defined.

(** C4, as the specification words it, fails in two ways.  With both
    fractions 1/2 a label of 11 files gets [floor(12 / 2) = 6] files in
    TRAIN and only the 5 that are left in VALIDATE.  With the default
    percentages a label of 89 files gets 62 files in TRAIN, where
    [floor(90 * 7 / 10) = 63]: the product [90 * 0.70] is the double just
    below 63. *)
Lemma split_counts_differ_from_floor :
  (exists ds g',
     stratified_split [("Orca"%string, eleven_files)] (PyFloat float_0_5) (PyFloat float_0_5)
       ([] : list nat) = Ok (ds, g') /\
     exists va,
       dict_get (ds_validate ds) "Orca" = Some va /\
       spec_count (length eleven_files) 1 2 = 6 /\
       Z.of_nat (length va) = 5) /\
  (exists ds g',
     stratified_split [("Orca"%string, numbered_files 89)]
       (PyFloat float_0_70) (PyFloat float_0_20) ([] : list nat) = Ok (ds, g') /\
     exists tr,
       dict_get (ds_train ds) "Orca" = Some tr /\
       spec_count (length (numbered_files 89)) 7 10 = 63 /\
       Z.of_nat (length tr) = 62).
Proof.
  split.
  - eexists _, _. split; [vm_compute; reflexivity|].
    eexists. split; [vm_compute; reflexivity|].
    split; reflexivity.
  - eexists _, _. split; [vm_compute; reflexivity|].
    eexists. split; [vm_compute; reflexivity|].
    split; vm_compute; reflexivity.
Qed.

(** C10.  At the default percentages every label that enters the split
    receives a non-empty TEST slice: the two counts the code computes add
    up to less than [n], as do [floor((n+1) * 0.70)] and
    [floor((n+1) * 0.20)], for every [n >= 10]. *)
Theorem default_split_leaves_test_files {G : Type} `{RandomGen G}
  (all_samples : list (string * list string)) (g : G) :
  List.NoDup (dict_keys all_samples) ->
  lists_fit all_samples ->
  (exists ds g',
     stratified_split all_samples (PyFloat float_0_70) (PyFloat float_0_20) g = Ok (ds, g') /\
     test_nonempty all_samples ds) /\
  (forall n : nat, (10 <= n)%nat -> spec_count n 7 10 + spec_count n 2 10 < Z.of_nat n).
Proof.
  intros Hnd Hfit. split.
  - destruct (split_items_spec (PyFloat float_0_70) (PyFloat float_0_20) all_samples
                empty_datasets g Hnd (default_counts_defined all_samples Hfit))
      as (ds & g' & Hrun & Hsl & _).
    exists ds, g'. split; [exact Hrun|].
    intros label files Hin Hlen.
    destruct (Hsl label files Hin Hlen)
      as (gk & a & b & tr & va & te & Ha & Hb & Hsp & _ & _ & _ & _ & _ & Hte & _).
    cbv zeta in Hte.
    destruct (default_counts (length files) Hlen (Hfit label files Hin))
      as (a' & b' & Ha' & Hb' & Ha0 & Hb0 & Hab).
    assert (a' = a) by congruence. assert (b' = b) by congruence. subst a' b'.
    exists a, b, te. split; [assumption|]. split; [assumption|]. split; [assumption|].
    unfold split_of in Hsp. injection Hsp as _ _ Hget.
    split; [assumption|].
    assert (Hlte : Z.of_nat (length te) = Z.of_nat (length files) - (a + b)) by lia.
    split; [assumption|].
    intros ->. simpl in Hlte. lia.
  - intros n Hn. unfold spec_count.
    assert (H7 := Z.mul_div_le ((Z.of_nat n + 1) * 7) 10).
    assert (H2 := Z.mul_div_le ((Z.of_nat n + 1) * 2) 10).
    lia.
Qed.

Lemma default_split_leaves_test_files_witness :
  (exists ds g',
     stratified_split two_labels (PyFloat float_0_70) (PyFloat float_0_20)
       [3; 1; 4; 1; 5; 9; 2; 6; 5]%nat = Ok (ds, g') /\
     test_nonempty two_labels ds) /\
  (forall n : nat, (10 <= n)%nat -> spec_count n 7 10 + spec_count n 2 10 < Z.of_nat n).
Proof.
  apply (default_split_leaves_test_files two_labels [3; 1; 4; 1; 5; 9; 2; 6; 5]%nat
           two_labels_NoDup two_labels_fit).
Defined.

(** C5: the generator that [np.random.seed(251)] seeds is not the one
    [random.shuffle] draws from.  Two runs of the module over the same
    file lists, both with the NumPy seed 251, split differently as soon as
    the generator of [random] starts from different states. *)
Lemma split_differs_between_runs :
  np_random_seed (load_module [0%nat]) = np_random_seed (load_module [1%nat]) /\
  run_split (load_module [0%nat]) [("Orca"%string, ten_files)] <>
  run_split (load_module [1%nat]) [("Orca"%string, ten_files)].
Proof.
  split; [reflexivity|].
  intros Heq. vm_compute in Heq. discriminate Heq.
Qed.

(** The split is a function of the state of [random] alone. *)
Remark run_split_ignores_numpy_seed {G : Type} `{RandomGen G} (p : @process G) (seed : Z)
  (all_samples : list (string * list string)) :
  run_split {| np_random_seed := seed; py_random := py_random p |} all_samples =
  run_split p all_samples.
Proof. reflexivity. Qed.

(** ** Quantization: claims C2 and C8 *)

(** C2, as the code has it.  For a segment length of [m > 0] frames
    ([m = int(sample_len * samplerate)]) and a file of [F] frames,
    [_quantize_sample] returns the empty list when [F <= m], and
    [ceil(F / m) - 1] segments when [F > m]: that is [F / m - 1] when [m]
    divides [F] and [floor(F / m)] otherwise. *)
Theorem quantize_segment_count (label file : string) (sample_len max_len : pynum)
  (wav : SoundFile) (m : Z) :
  min_frames_of sample_len wav = Ok m -> 0 < m ->
  exists l,
    _quantize_sample label file sample_len max_len wav = Ok l /\
    (frames wav <= m -> l = []) /\
    (m < frames wav ->
       Z.of_nat (length l) = ceil_div (frames wav) m - 1 /\
       Z.of_nat (length l) =
         if frames wav mod m =? 0 then frames wav / m - 1 else frames wav / m).
Proof.
  intros Hm Hpos. eexists. split; [apply (quantize_spec _ _ _ _ _ m Hm Hpos)|].
  split.
  - intros Hle. destruct (Z.gtb_spec (frames wav) m); [lia|reflexivity].
  - intros Hlt. destruct (Z.gtb_spec (frames wav) m); [|lia].
    rewrite length_map, length_seq.
    pose proof (ceil_div_bounds (frames wav) m Hpos) as Hb.
    assert (Hc : 2 <= ceil_div (frames wav) m) by nia.
    split; [lia|].
    rewrite Z2Nat.id by lia. rewrite ceil_div_cases by assumption.
    destruct (frames wav mod m =? 0); lia.
Qed.

Lemma quantize_segment_count_witness :
  exists l,
    _quantize_sample "Orca" "f.wav" (PyInt 2) (PyInt 600)
      {| samplerate := 16000; frames := 80000 |} = Ok l /\
    (80000 <= 32000 -> l = []) /\
    (32000 < 80000 ->
       Z.of_nat (length l) = ceil_div 80000 32000 - 1 /\
       Z.of_nat (length l) =
         if 80000 mod 32000 =? 0 then 80000 / 32000 - 1 else 80000 / 32000).
Proof.
  apply (quantize_segment_count "Orca" "f.wav" (PyInt 2) (PyInt 600)
           {| samplerate := 16000; frames := 80000 |} 32000).
  - reflexivity.
  - reflexivity.
Defined.

(** C2, as the specification words it, fails: a file of 5 seconds at
    16 kHz cut into segments of 2 seconds yields its two full segments,
    where [floor(5/2) - 1 = 1]. *)
Lemma quantize_keeps_full_segments :
  exists l,
    _quantize_sample "Orca" "f.wav" (PyInt 2) (PyInt 600)
      {| samplerate := 16000; frames := 80000 |} = Ok l /\
    length l = 2%nat /\
    spec_segment_count (duration {| samplerate := 16000; frames := 80000 |}) (2 # 1) = 1.
Proof.
  eexists. split; [vm_compute; reflexivity|]. split; reflexivity.
Qed.

(** C8.  Every segment [_quantize_sample] returns is the descriptor of a
    slice that lies within the file ([start + frames <= total frames]),
    whose length is the segment length [int(sample_len * samplerate)],
    strictly positive, and whose start is a multiple of that length; two
    segments at different positions of the returned list do not overlap. *)
Theorem quantize_segments_within_file (label file : string)
  (sample_len max_len : pynum) (wav : SoundFile) (l : list (string * string)) :
  _quantize_sample label file sample_len max_len wav = Ok l ->
  exists refs : list SegmentRef,
    l = map segment_entry refs /\
    (forall r, In r refs ->
       seg_label r = label /\ seg_file r = file /\
       min_frames_of sample_len wav = Ok (seg_frames r) /\
       0 < seg_frames r /\
       0 <= seg_start r /\
       seg_start r + seg_frames r <= frames wav /\
       (seg_frames r | seg_start r)) /\
    (forall (i j : nat) r1 r2, i <> j ->
       refs !! i = Some r1 -> refs !! j = Some r2 ->
       seg_start r1 + seg_frames r1 <= seg_start r2 \/
       seg_start r2 + seg_frames r2 <= seg_start r1).
Proof.
  intros Hq.
  destruct (min_frames_of sample_len wav) as [m|e] eqn:Hm;
    [|unfold _quantize_sample in Hq; rewrite Hm in Hq; discriminate Hq].
  destruct (Z.le_gt_cases m 0) as [Hneg|Hpos].
  - rewrite (quantize_negative _ _ _ _ _ m l Hm Hneg Hq).
    exists []. split; [reflexivity|]. split; [intros r []|].
    intros i j r1 r2 _ Hi. rewrite lookup_nil in Hi. discriminate Hi.
  - rewrite (quantize_spec _ _ _ _ _ m Hm Hpos) in Hq. injection Hq as <-.
    set (c := if frames wav >? m then Z.to_nat (ceil_div (frames wav) m - 1) else 0%nat).
    set (mk := fun i : nat =>
                 {| seg_label := label; seg_file := file;
                    seg_start := Z.of_nat i * m; seg_frames := m |}).
    assert (Hc : forall i : nat, (i < c)%nat -> (Z.of_nat i + 1) * m < frames wav).
    { intros i Hi. unfold c in Hi.
      destruct (Z.gtb_spec (frames wav) m); [|lia].
      pose proof (ceil_div_bounds (frames wav) m Hpos) as Hb. nia. }
    exists (map mk (seq 0 c)). split; [|split].
    + rewrite map_map. reflexivity.
    + intros r Hin. apply in_map_iff in Hin as (i & <- & Hi).
      apply in_seq in Hi. simpl.
      specialize (Hc i ltac:(lia)).
      repeat split; try reflexivity; try lia.
      exists (Z.of_nat i). reflexivity.
    + intros i j r1 r2 Hne Hi Hj.
      rewrite list_lookup_fmap in Hi, Hj.
      destruct (seq 0 c !! i) as [i'|] eqn:Ei; [|discriminate Hi].
      destruct (seq 0 c !! j) as [j'|] eqn:Ej; [|discriminate Hj].
      apply lookup_seq in Ei as [-> _]. apply lookup_seq in Ej as [-> _].
      injection Hi as <-. injection Hj as <-. simpl.
      destruct (Nat.lt_ge_cases i j); [left|right]; nia.
Qed.

Lemma quantize_segments_within_file_witness :
  exists refs : list SegmentRef,
    [("Orca", "f.wav:0:2"); ("Orca", "f.wav:2:2")]%string = map segment_entry refs /\
    (forall r, In r refs ->
       seg_label r = "Orca"%string /\ seg_file r = "f.wav"%string /\
       min_frames_of (PyInt 2) {| samplerate := 1; frames := 5 |} = Ok (seg_frames r) /\
       0 < seg_frames r /\
       0 <= seg_start r /\
       seg_start r + seg_frames r <= frames {| samplerate := 1; frames := 5 |} /\
       (seg_frames r | seg_start r)) /\
    (forall (i j : nat) r1 r2, i <> j ->
       refs !! i = Some r1 -> refs !! j = Some r2 ->
       seg_start r1 + seg_frames r1 <= seg_start r2 \/
       seg_start r2 + seg_frames r2 <= seg_start r1).
Proof.
  apply (quantize_segments_within_file "Orca" "f.wav" (PyInt 2) (PyInt 600)
           {| samplerate := 1; frames := 5 |}).
  vm_compute. reflexivity.
Defined.

(** ** Extraction and persistence: claims C7 and C1 *)

(** C7, as the code has it.  For a segment whose framed spectrogram has
    at most one window, [extract_segment_features] returns exactly one
    example of the fixed shape [(1, NUM_FRAMES, NUM_BANDS, 1)]: all zeros
    when the framing step yields no window, and the window itself when it
    yields one window of [NUM_FRAMES] by [NUM_BANDS] values. *)
Theorem extract_one_example `{MelEnv} (segment : string) (ex : ndarray) (k w b : nat) :
  segment_spectrogram segment = Ok ex ->
  shape ex = [k; w; b] ->
  wf_array ex ->
  k = O \/ (k = 1%nat /\ w = NUM_FRAMES /\ b = NUM_BANDS) ->
  exists X,
    extract_segment_features segment = Ok X /\
    shape X = [1%nat; NUM_FRAMES; NUM_BANDS; 1%nat] /\
    wf_array X /\
    (k = O -> X = np_zeros [1%nat; NUM_FRAMES; NUM_BANDS; 1%nat]) /\
    (k = 1%nat -> data X = data ex).
Proof.
  intros Hs Hshape Hwf Hk.
  rewrite (extract_from_spectrogram segment ex Hs).
  unfold np_expand_dims. rewrite Hshape. cbn [length Nat.leb take drop app].
  cbn [mbind result_bind shape head default].
  destruct Hk as [->|(-> & -> & ->)].
  - exists (np_zeros [1%nat; NUM_FRAMES; NUM_BANDS; 1%nat]).
    split; [reflexivity|]. split; [reflexivity|].
    split; [unfold wf_array; simpl; apply length_replicate|].
    split; [reflexivity|discriminate].
  - cbn [Nat.ltb Nat.leb].
    assert (Hd : length (data ex) = (NUM_FRAMES * NUM_BANDS)%nat).
    { unfold wf_array in Hwf. rewrite Hwf, Hshape. simpl. lia. }
    rewrite (set_first_one_window (data ex) Hd).
    eexists. split; [reflexivity|]. split; [reflexivity|].
    split; [unfold wf_array; simpl; lia|].
    split; [discriminate|reflexivity].
Qed.

Lemma extract_one_example_witness :
  exists X,
    @extract_segment_features toy_env "a.wav:0:4" = Ok X /\
    shape X = [1%nat; @NUM_FRAMES toy_env; @NUM_BANDS toy_env; 1%nat] /\
    wf_array X /\
    (1%nat = O -> X = np_zeros [1%nat; @NUM_FRAMES toy_env; @NUM_BANDS toy_env; 1%nat]) /\
    (1%nat = 1%nat ->
     data X = replicate 4 f64_one).
Proof.
  apply (@extract_one_example toy_env "a.wav:0:4"
           {| shape := [1; 2; 2]%nat; data := replicate 4 f64_one |} 1 2 2).
  - vm_compute. reflexivity.
  - reflexivity.
  - reflexivity.
  - right. repeat split; reflexivity.
Defined.

(** C7, as the specification words it, fails: when the framing step
    yields two windows the first one is not kept, the assignment into
    the example raises [ValueError]. *)
Lemma extract_two_windows_raises :
  (exists ex,
     @segment_spectrogram toy_env "a.wav:0:8" = Ok ex /\ shape ex = [2; 2; 2]%nat) /\
  @extract_segment_features toy_env "a.wav:0:8" = Raise ValueError.
Proof.
  split; [eexists; split; vm_compute; reflexivity|].
  vm_compute. reflexivity.
Qed.

(** The same for every environment and every number of windows above one. *)
Lemma extract_many_windows_raises `{MelEnv} (segment : string) (ex : ndarray) (k w b : nat) :
  segment_spectrogram segment = Ok ex ->
  shape ex = [k; w; b] -> (2 <= k)%nat ->
  extract_segment_features segment = Raise ValueError.
Proof.
  intros Hs Hshape Hk.
  rewrite (extract_from_spectrogram segment ex Hs).
  unfold np_expand_dims. rewrite Hshape. cbn [length Nat.leb take drop app].
  cbn [mbind result_bind shape head default].
  destruct k as [|[|k]]; try lia.
  cbn [Nat.ltb Nat.leb]. apply set_first_many_windows. lia.
Qed.

(** What two saves in a row leave behind, for every environment: the
    features of the second save, and the backup file as it was before the
    first save. *)
Lemma save_twice_spec `{MelEnv} (dataset1 dataset2 : list (string * string))
  (data_path : string) (d : DatasetType) (fs : filesystem)
  (data1 data2 : list (string * ndarray)) :
  extract_all dataset1 = Ok data1 ->
  extract_all dataset2 = Ok data2 ->
  let fs1 := (_extract_and_save_features dataset1 data_path (Some d) fs).1 in
  let fs2 := (_extract_and_save_features dataset2 data_path (Some d) fs1).1 in
  fs2 !! features_path data_path d = Some data2 /\
  fs2 !! (features_path data_path d ++ "-old")%string =
    fs !! (features_path data_path d ++ "-old")%string.
Proof.
  intros H1 H2 fs1 fs2. unfold fs2, fs1.
  rewrite (save_spec dataset1 data_path d fs data1 H1). cbn [fst].
  rewrite (save_spec dataset2 data_path d _ data2 H2). cbn [fst].
  pose proof (append_suffix_ne (features_path data_path d)) as Hne.
  split.
  - apply lookup_insert_eq.
  - rewrite lookup_insert_ne, lookup_delete_ne, lookup_insert_ne, lookup_delete_ne
      by assumption.
    reflexivity.
Qed.

(** C1: the code at two saves in a row.  The first save writes
    [TRAIN.features]; the second replaces it, and no [TRAIN.features-old]
    with the contents of the first save exists afterwards. *)
Lemma second_save_leaves_no_backup :
  let save := @_extract_and_save_features toy_env in
  let fs1 := (save [("Orca", "a.wav:0:4")]%string "/data"%string (Some TRAIN) ∅).1 in
  let fs2 := (save [("Orca", "a.wav:4:4")]%string "/data"%string (Some TRAIN) fs1).1 in
  exists data1 data2,
    fs1 !! "/data/TRAIN.features"%string = Some data1 /\
    fs2 !! "/data/TRAIN.features"%string = Some data2 /\
    data1 <> data2 /\
    fs2 !! "/data/TRAIN.features-old"%string = None.
Proof.
  intros save fs1 fs2.
  assert (H1 : @extract_all toy_env [("Orca", "a.wav:0:4")]%string =
               Ok [("Orca"%string,
                    {| shape := [1; 2; 2; 1]%nat; data := replicate 4 (f64_of_Z 1) |})])
    by (vm_compute; reflexivity).
  assert (H2 : @extract_all toy_env [("Orca", "a.wav:4:4")]%string =
               Ok [("Orca"%string,
                    {| shape := [1; 2; 2; 1]%nat; data := replicate 4 (f64_of_Z 5) |})])
    by (vm_compute; reflexivity).
  destruct (@save_twice_spec toy_env _ _ "/data"%string TRAIN ∅ _ _ H1 H2) as [Hp Hb].
  eexists _, _. split; [|split; [exact Hp|split; [|exact Hb]]].
  - unfold fs1, save. rewrite (@save_spec toy_env _ "/data"%string TRAIN ∅ _ H1).
    apply lookup_insert_eq.
  - vm_compute. discriminate.
Qed.

(** ** Claim C9 *)



Lemma encode_example :
  encode_labels ["A"; "B"; "C"]%string (create_label_encoding ["B"; "A"; "C"]%string) =
    Ok [[f64_one; f64_zero; f64_zero];
        [f64_zero; f64_one; f64_zero];
        [f64_zero; f64_zero; f64_one]] /\
  map (lex_rank ["B"; "A"; "C"]%string) ["A"; "B"; "C"]%string = [0; 1; 2]%nat.
Proof. split; vm_compute; reflexivity. Qed.

(** * Part III: further properties of the pipeline *)

(** ** Arrays *)

Lemma append_nonempty_ne (s suffix : string) :
  suffix <> EmptyString -> s <> (s ++ suffix)%string.
Proof.
  intros Hs. induction s as [|c s IH]; simpl.
  - intros Heq. apply Hs. symmetry. exact Heq.
  - intros Heq. injection Heq as Heq. exact (IH Heq).
Qed.

Lemma option_all_Forall2 {A B} (f : A -> option B) (l : list A) (r : list B) :
  option_all (map f l) = Some r -> Forall2 (fun a b => f a = Some b) l r.
Proof.
  revert r. induction l as [|a l IH]; intros r; simpl.
  - intros [= <-]. constructor.
  - destruct (f a) as [b|] eqn:Ea; [|discriminate].
    destruct (option_all (map f l)) as [bs|]; [|discriminate].
    intros [= <-]. constructor; [exact Ea|apply IH; reflexivity].
Qed.

Lemma length_concat_uniform {A} (l : list (list A)) (sz : nat) :
  Forall (fun c => length c = sz) l -> length (concat l) = (length l * sz)%nat.
Proof.
  induction 1 as [|c l Hc _ IH]; simpl; [reflexivity|].
  rewrite length_app, IH, Hc. reflexivity.
Qed.

Lemma chunks_length {A} (n sz : nat) (l : list A) : length (chunks n sz l) = n.
Proof. revert l. induction n as [|n IH]; intros l; simpl; [reflexivity|]. rewrite IH. reflexivity. Qed.

(** Broadcasting a well-formed array yields as many elements as the target
    shape has. *)
Lemma broadcast_data_length src : forall tgt d d',
  length d = size_of src ->
  broadcast_data src tgt d = Some d' -> length d' = size_of tgt.
Proof.
  induction src as [|s src IH]; intros [|t tgt] d d' Hd; simpl; try discriminate.
  - intros [= <-]. exact Hd.
  - simpl in Hd. destruct (Nat.eqb_spec s t) as [->|Hne].
    + destruct (option_all _) as [parts|] eqn:Ep; [|discriminate].
      simpl. intros [= <-].
      apply option_all_Forall2 in Ep.
      pose proof (chunks_lengths t (size_of src) d Hd) as Hcl.
      assert (Hparts : Forall (fun p => length p = size_of tgt) parts).
      { clear Hd. revert Hcl. induction Ep as [|c p cs ps Hcp _ IHp]; intros Hcl.
        - constructor.
        - inversion Hcl as [|? ? Hc Hcl']; subst.
          constructor; [eapply IH; eassumption|apply IHp; exact Hcl']. }
      rewrite (length_concat_uniform _ _ Hparts).
      rewrite <- (Forall2_length _ _ _ Ep), chunks_length. reflexivity.
    + destruct (Nat.eqb_spec s 1) as [->|_]; [|discriminate].
      destruct (broadcast_data src tgt d) as [part|] eqn:Ep; [|discriminate].
      simpl. intros [= <-].
      rewrite (length_concat_uniform _ (size_of tgt)).
      * rewrite length_replicate. reflexivity.
      * apply Forall_replicate. eapply IH; [|exact Ep]. lia.
Qed.

Lemma size_of_strip (sh : list nat) (rank : nat) :
  size_of (strip_unit_axes sh rank) = size_of sh.
Proof.
  induction sh as [|s sh IH]; simpl; [reflexivity|].
  destruct s as [|[|s]]; try reflexivity.
  destruct (rank <? S (length sh))%nat; [|reflexivity].
  rewrite IH. simpl. lia.
Qed.

Lemma size_of_app (l1 l2 : list nat) : size_of (l1 ++ l2) = (size_of l1 * size_of l2)%nat.
Proof. induction l1 as [|a l1 IH]; simpl; [lia|]. simpl in IH. rewrite IH. lia. Qed.

Lemma size_of_pad (n : nat) (sh : list nat) :
  size_of (replicate n 1%nat ++ sh) = size_of sh.
Proof. induction n as [|n IH]; simpl; [reflexivity|]. simpl in IH. rewrite IH. lia. Qed.

Lemma np_broadcast_to_length (tgt : list nat) (v : ndarray) (d : list spec_float) :
  wf_array v -> np_broadcast_to tgt v = Ok d -> length d = size_of tgt.
Proof.
  unfold wf_array, np_broadcast_to. intros Hwf.
  destruct (length tgt <? _)%nat; [discriminate|].
  destruct (broadcast_data _ tgt (data v)) as [d'|] eqn:Eb; [|discriminate].
  intros [= <-]. eapply broadcast_data_length; [|exact Eb].
  rewrite size_of_pad, size_of_strip. exact Hwf.
Qed.

Section ExampleShape.
Context `{MelEnv}.

(** Whatever a segment is, an example that is returned has the fixed
  shape, and its elements fill that shape when the framed spectrogram was
  a well-formed array. *)
Lemma extract_canonical (segment : string) (ex X : ndarray) :
segment_spectrogram segment = Ok ex -> wf_array ex ->
extract_segment_features segment = Ok X -> canonical X.
Proof.
intros Hs Hwf. rewrite (extract_from_spectrogram segment ex Hs).
unfold np_expand_dims.
destruct (3 <=? length (shape ex))%nat; [|discriminate].
cbn [mbind result_bind shape].
set (v := {| shape := _; data := data ex |}).
assert (Hv : wf_array v).
{ unfold wf_array, v. cbn [shape data]. rewrite Hwf.
  rewrite <- (take_drop 3 (shape ex)) at 1.
  rewrite !size_of_app. simpl. lia. }
destruct (0 <? _)%nat.
- unfold np_set_first. cbn [np_zeros shape data].
  destruct (np_broadcast_to _ v) as [d|] eqn:Ed; [|discriminate].
  cbn [mbind result_bind]. intros [= <-]. split; [reflexivity|].
  cbn [data]. rewrite length_app, (np_broadcast_to_length _ v d Hv Ed).
  rewrite length_drop, length_replicate. simpl. lia.
- intros [= <-]. split; [reflexivity|].
  simpl. rewrite length_replicate. lia.
Qed.
End ExampleShape.

(** ** Persistence *)

Lemma result_map_Forall2 {A B} (f : A -> result B) (l : list A) (r : list B) :
  result_map f l = Ok r -> Forall2 (fun a b => f a = Ok b) l r.
Proof.
  revert r. induction l as [|a l IH]; intros r; simpl.
  - intros [= <-]. constructor.
  - destruct (f a) as [b|e] eqn:Ea; [|discriminate]. cbn [mbind result_bind].
    destruct (result_map f l) as [bs|e]; [|discriminate]. cbn [mbind result_bind].
    intros [= <-]. constructor; [exact Ea|apply IH; reflexivity].
Qed.

Lemma append_inj_r (p a b : string) : (p ++ a)%string = (p ++ b)%string -> a = b.
Proof.
  induction p as [|c p IH]; simpl; [auto|].
  intros Heq. injection Heq as Heq. exact (IH Heq).
Qed.

Lemma features_path_inj (data_path : string) (d d' : DatasetType) :
  features_path data_path d = features_path data_path d' -> d = d'.
Proof.
  unfold features_path, os_path_join.
  assert (Hs : forall x, starts_with_slash (dataset_name x ++ ".features") = false)
    by (intros []; reflexivity).
  rewrite !Hs.
  destruct (str_is_empty data_path || ends_with_slash data_path); intros Heq.
  - apply append_inj_r in Heq. destruct d, d'; try reflexivity; discriminate Heq.
  - apply append_inj_r in Heq. destruct d, d'; try reflexivity; discriminate Heq.
Qed.

(** X1.  [_backup_datafile] moves an existing file: afterwards the path
    with the suffix holds what the file held, replacing an earlier backup,
    the file itself is gone, and every other path is as before.  Without
    the file nothing changes. *)
Theorem backup_moves_the_file (file_path suffix : string) (fs : filesystem) :
  suffix <> EmptyString ->
  (forall content, fs !! file_path = Some content ->
     _backup_datafile file_path suffix fs !! (file_path ++ suffix)%string = Some content /\
     _backup_datafile file_path suffix fs !! file_path = None /\
     forall p, p <> file_path -> p <> (file_path ++ suffix)%string ->
       _backup_datafile file_path suffix fs !! p = fs !! p) /\
  (fs !! file_path = None -> _backup_datafile file_path suffix fs = fs).
Proof.
  intros Hs. pose proof (append_nonempty_ne file_path suffix Hs) as Hne.
  unfold _backup_datafile, os_path_exists, os_rename. split.
  - intros content Hc. rewrite Hc.
    rewrite bool_decide_eq_true_2 by eauto.
    split; [apply lookup_insert_eq|]. split.
    + rewrite lookup_insert_ne by congruence. apply lookup_delete_eq.
    + intros p Hp Hp'. rewrite lookup_insert_ne by congruence.
      apply lookup_delete_ne. congruence.
  - intros Hn. rewrite bool_decide_eq_false_2; [reflexivity|].
    rewrite Hn. intros [? Hx]. discriminate Hx.
Qed.

Lemma backup_moves_the_file_witness :
  (forall content,
     ({[ "a" := [] ]} : filesystem) !! "a"%string = Some content ->
     _backup_datafile "a" "-old" {[ "a" := [] ]} !! ("a" ++ "-old")%string = Some content /\
     _backup_datafile "a" "-old" {[ "a" := [] ]} !! "a"%string = None /\
     forall p, p <> "a"%string -> p <> ("a" ++ "-old")%string ->
       _backup_datafile "a" "-old" {[ "a" := [] ]} !! p
         = ({[ "a" := [] ]} : filesystem) !! p) /\
  (({[ "a" := [] ]} : filesystem) !! "a"%string = None ->
   _backup_datafile "a" "-old" {[ "a" := [] ]} = {[ "a" := [] ]}).
Proof.
  apply (backup_moves_the_file "a" "-old" {[ "a"%string := [] ]}). discriminate.
Defined.

Section SaveFacts.
Context `{MelEnv}.

Lemma save_failure dataset data_path d (fs : filesystem) e :
extract_all dataset = Raise e ->
_extract_and_save_features dataset data_path (Some d) fs =
  (delete (features_path data_path d) fs, Raise e).
Proof.
intros Hdata. unfold _extract_and_save_features.
fold (extract_all dataset). rewrite Hdata.
unfold os_path_exists, os_remove. case_bool_decide as Hex; [reflexivity|].
f_equal. symmetry. apply delete_id.
destruct (fs !! features_path data_path d) eqn:E; [|reflexivity].
exfalso. apply Hex. eauto.
Qed.

Lemma save_cases dataset data_path d (fs : filesystem) :
(exists data, extract_all dataset = Ok data /\
   _extract_and_save_features dataset data_path (Some d) fs =
     (<[features_path data_path d := data]> (delete (features_path data_path d) fs),
      Ok tt)) \/
(exists e, extract_all dataset = Raise e /\
   _extract_and_save_features dataset data_path (Some d) fs =
     (delete (features_path data_path d) fs, Raise e)).
Proof.
destruct (extract_all dataset) as [data|e] eqn:E.
- left. exists data. split; [reflexivity|]. apply save_spec. exact E.
- right. exists e. split; [reflexivity|]. apply save_failure. exact E.
Qed.

Lemma extract_all_spec dataset data :
extract_all dataset = Ok data ->
Forall2 (fun segment item =>
           fst item = fst segment /\
           extract_segment_features (snd segment) = Ok (snd item)) dataset data.
Proof.
intros Hd. apply result_map_Forall2 in Hd.
eapply Forall2_impl; [exact Hd|].
intros [label seg] [label' x]. cbn [fst snd].
destruct (extract_segment_features seg) as [y|e]; [|discriminate].
cbn [mbind result_bind]. intros [= <- <-]. auto.
Qed.
End SaveFacts.

(** X2.  A save whose extraction raises passes the exception on, and by
    then the feature file of the split is already deleted: the path does
    not exist afterwards, and no backup of it was made. *)
Theorem failed_save_removes_the_file `{MelEnv} (dataset : list (string * string))
  (data_path : string) (d : DatasetType) (fs : filesystem) (e : exn) :
  extract_all dataset = Raise e ->
  (_extract_and_save_features dataset data_path (Some d) fs).2 = Raise e /\
  (_extract_and_save_features dataset data_path (Some d) fs).1
     !! features_path data_path d = None /\
  (_extract_and_save_features dataset data_path (Some d) fs).1
     !! (features_path data_path d ++ "-old")%string
   = fs !! (features_path data_path d ++ "-old")%string.
Proof.
  intros He. rewrite (save_failure dataset data_path d fs e He). cbn [fst snd].
  split; [reflexivity|]. split; [apply lookup_delete_eq|].
  apply lookup_delete_ne. apply append_suffix_ne.
Qed.

Lemma failed_save_removes_the_file_witness :
  let fs : filesystem := {[ "/data/TRAIN.features"%string := [] ]} in
  (@_extract_and_save_features toy_env [("Orca", "a.wav:0:8")]%string "/data" (Some TRAIN) fs).2
    = Raise ValueError /\
  (@_extract_and_save_features toy_env [("Orca", "a.wav:0:8")]%string "/data" (Some TRAIN) fs).1
     !! features_path "/data" TRAIN = None /\
  (@_extract_and_save_features toy_env [("Orca", "a.wav:0:8")]%string "/data" (Some TRAIN) fs).1
     !! (features_path "/data" TRAIN ++ "-old")%string
   = fs !! (features_path "/data" TRAIN ++ "-old")%string.
Proof.
  intros fs.
  apply (@failed_save_removes_the_file toy_env [("Orca", "a.wav:0:8")]%string "/data" TRAIN fs
           ValueError).
  vm_compute. reflexivity.
Defined.

(** X3.  Whether it returns or raises, a save changes no path other than
    the feature file of its own split: the files of the other two splits
    and every backup file are as they were. *)
Theorem save_touches_one_file `{MelEnv} (dataset : list (string * string))
  (data_path : string) (d : DatasetType) (fs : filesystem) :
  (forall p, p <> features_path data_path d ->
     (_extract_and_save_features dataset data_path (Some d) fs).1 !! p = fs !! p) /\
  (forall d', d' <> d ->
     read_features (_extract_and_save_features dataset data_path (Some d) fs).1 data_path d'
       = read_features fs data_path d').
Proof.
  assert (Hp : forall p, p <> features_path data_path d ->
     (_extract_and_save_features dataset data_path (Some d) fs).1 !! p = fs !! p).
  { intros p Hne.
    destruct (save_cases dataset data_path d fs) as [(data & _ & ->)|(e & _ & ->)];
      cbn [fst].
    - rewrite lookup_insert_ne by congruence. apply lookup_delete_ne. congruence.
    - apply lookup_delete_ne. congruence. }
  split; [exact Hp|].
  intros d' Hd. unfold read_features. apply Hp.
  intros Heq. apply Hd. eapply features_path_inj. exact Heq.
Qed.

Lemma save_returned_spec `{MelEnv} (dataset : list (string * string))
  (data_path : string) (d : DatasetType) (fs fs' : filesystem) :
  (forall segment ex, segment_spectrogram segment = Ok ex -> wf_array ex) ->
  _extract_and_save_features dataset data_path (Some d) fs = (fs', Ok tt) ->
  exists data,
    read_features fs' data_path d = Some data /\
    map fst data = map fst dataset /\
    length data = length dataset /\
    Forall2 (fun segment item => extract_segment_features (snd segment) = Ok (snd item))
            dataset data /\
    Forall (fun item => canonical (snd item)) data.
Proof.
  intros Hwf Hsave.
  destruct (save_cases dataset data_path d fs) as [(data & Hd & Hs)|(e & _ & Hs)];
    rewrite Hs in Hsave; [|discriminate Hsave].
  injection Hsave as <-.
  pose proof (extract_all_spec dataset data Hd) as Hall.
  exists data. split; [apply lookup_insert_eq|]. split; [|split; [|split]].
  - clear Hd Hs. induction Hall as [|s i ss its [Hl _] _ IH]; simpl; [reflexivity|].
    rewrite Hl, IH. reflexivity.
  - symmetry. eapply Forall2_length. exact Hall.
  - eapply Forall2_impl; [exact Hall|]. intros s i [_ Hx]. exact Hx.
  - clear Hd Hs. induction Hall as [|s i ss its [_ Hx] _ IH]; constructor; [|exact IH].
    destruct (segment_spectrogram (snd s)) as [ex|e] eqn:Es.
    + eapply extract_canonical; [exact Es|eapply Hwf; exact Es|exact Hx].
    + unfold extract_segment_features in Hx. rewrite Es in Hx. discriminate Hx.
Qed.


(** X4.  A save that returns has written one entry per segment, in the
    order of the segments and under their labels, each with the example
    extracted from the segment, of the fixed shape. *)
Theorem saved_features_follow_segments `{MelEnv} (dataset : list (string * string))
  (data_path : string) (d : DatasetType) (fs fs' : filesystem) :
  (forall segment ex, segment_spectrogram segment = Ok ex -> wf_array ex) ->
  _extract_and_save_features dataset data_path (Some d) fs = (fs', Ok tt) ->
  exists data,
    read_features fs' data_path d = Some data /\
    map fst data = map fst dataset /\
    Forall2 (fun segment item => extract_segment_features (snd segment) = Ok (snd item))
            dataset data /\
    Forall (fun item => canonical (snd item)) data.
Proof.
  intros Hwf Hsave.
  destruct (save_returned_spec dataset data_path d fs fs' Hwf Hsave)
    as (data & H1 & H2 & _ & H3 & H4).
  exists data. auto.
Qed.
(** ** Loading *)

Lemma toy_env_wf (segment : string) (ex : ndarray) :
  @segment_spectrogram toy_env segment = Ok ex -> wf_array ex.
Proof.
  unfold segment_spectrogram.
  destruct (segment_fields segment) as [[[file start] frames]|e]; [|discriminate].
  cbn [mbind result_bind sf_read toy_env].
  unfold _waveform_to_mel_spectrogram_segments.
  cbn [shape data length Nat.ltb Nat.leb SAMPLE_RATE resample log_mel_spectrogram frame
       example_window_length example_hop_length toy_env].
  rewrite Z.eqb_refl. cbn [negb]. intros [= <-].
  unfold wf_array, toy_frame. cbn [shape data head default].
  rewrite length_take, !length_replicate.
  set (n := Z.to_nat frames).
  unfold size_of. cbn [foldr].
  change (id (Nat.divmod n 1 0 1).1) with (n / 2)%nat.
  destruct (Nat.ltb_spec (n / 2) 2) as [Hlt|Hge].
  - lia.
  - pose proof (Nat.div_mod_eq n 2) as Hn.
    pose proof (Nat.div_mod_eq (n / 2 - 2) 2) as Hr.
    pose proof (Nat.mod_upper_bound n 2 ltac:(lia)).
    pose proof (Nat.mod_upper_bound (n / 2 - 2) 2 ltac:(lia)).
    lia.
Qed.

Lemma saved_features_follow_segments_witness :
  exists data,
    read_features
      (<[features_path "/data" TRAIN :=
           [("Orca"%string,
             {| shape := [1; 2; 2; 1]%nat; data := replicate 4 (f64_of_Z 1) |})]]> ∅)
      "/data" TRAIN = Some data /\
    map fst data = map fst [("Orca", "a.wav:0:4")]%string /\
    Forall2 (fun segment item =>
               @extract_segment_features toy_env (snd segment) = Ok (snd item))
            [("Orca", "a.wav:0:4")]%string data /\
    Forall (fun item => @canonical toy_env (snd item)) data.
Proof.
  apply (@saved_features_follow_segments toy_env [("Orca", "a.wav:0:4")]%string
           "/data" TRAIN ∅ _ toy_env_wf).
  vm_compute. reflexivity.
Defined.

Lemma chunks_of_concat {A} (l : list (list A)) (sz : nat) :
  Forall (fun c => length c = sz) l -> chunks (length l) sz (concat l) = l.
Proof.
  induction 1 as [|c l Hc _ IH]; simpl; [reflexivity|].
  rewrite take_app_length' by (symmetry; exact Hc).
  rewrite drop_app_length' by (symmetry; exact Hc). rewrite IH. reflexivity.
Qed.

Lemma map_take_uniform {A} (l : list (list A)) (sz : nat) :
  Forall (fun c => length c = sz) l -> map (take sz) l = l.
Proof.
  induction 1 as [|c l Hc _ IH]; simpl; [reflexivity|].
  rewrite IH, take_ge by lia. reflexivity.
Qed.

Section LoadFacts.
Context `{MelEnv}.

(** Stacking canonical examples and dropping their first axis. *)
Lemma stack_canonical (arrays : list ndarray) :
arrays <> [] -> Forall canonical arrays ->
(a ← np_array arrays; np_drop_axis1 a) =
  Ok {| shape := [length arrays; NUM_FRAMES; NUM_BANDS; 1%nat];
        data := concat (map data arrays) |}.
Proof.
intros Hne Hall. destruct arrays as [|a0 arrays']; [contradiction|].
assert (Ha0 : shape a0 = [1%nat; NUM_FRAMES; NUM_BANDS; 1%nat]).
{ inversion Hall as [|? ? [Hs _] _]. exact Hs. }
unfold np_array.
match goal with
| |- context [forallb ?f (a0 :: arrays')] =>
    assert (Hf : forallb f (a0 :: arrays') = true)
end.
{ apply forallb_forall. intros b Hb. apply bool_decide_eq_true_2.
  rewrite Forall_forall in Hall. apply list_elem_of_In in Hb.
  destruct (Hall b Hb) as [Hs _]. congruence. }
rewrite Hf. cbn [mbind result_bind]. unfold np_drop_axis1. cbn [shape data].
rewrite Ha0. cbn [Nat.ltb Nat.leb Nat.eqb].
change (length [NUM_BANDS; 1%nat]) with 2%nat. cbn [Nat.ltb Nat.leb].
f_equal. f_equal.
assert (Hlen : Forall (fun c => length c = (1 * size_of [NUM_FRAMES; NUM_BANDS; 1%nat])%nat)
                 (map data (a0 :: arrays'))).
{ apply Forall_fmap. eapply Forall_impl; [exact Hall|].
  intros x [_ Hx]. simpl. rewrite Hx. lia. }
rewrite <- (length_map data (a0 :: arrays')), (chunks_of_concat _ _ Hlen).
rewrite map_take_uniform; [reflexivity|].
eapply Forall_impl; [exact Hlen|]. intros c Hc. simpl in *. lia.
Qed.
End LoadFacts.

Lemma remove_items_nil (features : list (string * ndarray)) :
  remove_items [] features = features.
Proof.
  unfold remove_items. induction features as [|x l IH]; [reflexivity|].
  rewrite filter_cons_True by reflexivity. rewrite IH. reflexivity.
Qed.

Lemma rename_items_nil (OTHER_CLASS : string) (features : list (string * ndarray)) :
  rename_items OTHER_CLASS [] features = features.
Proof. unfold rename_items. simpl. apply map_id. Qed.

(** What [load_features] does with a stored list. *)
Lemma load_features_stored (OTHER_CLASS data_path : string) (d : DatasetType)
  (remove_classes other_classes : list string) (fs : filesystem)
  (stored : list (string * ndarray)) :
  read_features fs data_path d = Some stored ->
  load_features OTHER_CLASS data_path (Some d) remove_classes other_classes fs =
    let features :=
      rename_items OTHER_CLASS other_classes (remove_items remove_classes stored) in
    match features with
    | [] => Raised (Builtin ValueError)
    | _ =>
        match (a ← np_array (map snd features); np_drop_axis1 a) with
        | Ok a => Returned (a, map fst features)
        | Raise e => Raised (Builtin e)
        end
    end.
Proof.
  intros Hread. unfold load_features, os_path_exists.
  unfold read_features in Hread |- *. rewrite Hread.
  rewrite bool_decide_eq_true_2 by eauto. reflexivity.
Qed.

(** X5.  Round trip: after a save that returned for a non-empty dataset,
    loading the split with nothing to remove or rename returns the labels
    of the segments in order and one array of shape
    [(n, NUM_FRAMES, NUM_BANDS, 1)] that holds the saved examples one
    after the other. *)
Theorem load_after_save `{MelEnv} (OTHER_CLASS : string) (dataset : list (string * string))
  (data_path : string) (d : DatasetType) (fs fs' : filesystem) :
  (forall segment ex, segment_spectrogram segment = Ok ex -> wf_array ex) ->
  dataset <> [] ->
  _extract_and_save_features dataset data_path (Some d) fs = (fs', Ok tt) ->
  exists saved,
    read_features fs' data_path d = Some saved /\
    load_features OTHER_CLASS data_path (Some d) [] [] fs' =
      Returned ({| shape := [length dataset; NUM_FRAMES; NUM_BANDS; 1%nat];
                   data := concat (map (fun item => data (snd item)) saved) |},
                map fst dataset).
Proof.
  intros Hwf Hne Hsave.
  destruct (save_returned_spec dataset data_path d fs fs' Hwf Hsave)
    as (saved & Hread & Hlabels & Hlen & _ & Hcan).
  exists saved. split; [exact Hread|].
  rewrite (load_features_stored _ _ _ _ _ _ saved Hread). cbv zeta.
  rewrite remove_items_nil, rename_items_nil.
  destruct saved as [|item saved'].
  { destruct dataset; [contradiction|discriminate Hlabels]. }
  rewrite (stack_canonical (map snd (item :: saved'))).
  - rewrite length_map, Hlabels, Hlen, map_map. reflexivity.
  - discriminate.
  - apply Forall_fmap. exact Hcan.
Qed.

Lemma load_after_save_witness :
  exists saved,
    read_features
      (<[features_path "/data" TRAIN :=
           [("Orca"%string,
             {| shape := [1; 2; 2; 1]%nat; data := replicate 4 (f64_of_Z 1) |})]]> ∅)
      "/data" TRAIN = Some saved /\
    load_features "Other" "/data" (Some TRAIN) [] []
      (<[features_path "/data" TRAIN :=
           [("Orca"%string,
             {| shape := [1; 2; 2; 1]%nat; data := replicate 4 (f64_of_Z 1) |})]]> ∅) =
      Returned ({| shape := [length [("Orca", "a.wav:0:4")]%string;
                             @NUM_FRAMES toy_env; @NUM_BANDS toy_env; 1%nat];
                   data := concat (map (fun item => data (snd item)) saved) |},
                map fst [("Orca", "a.wav:0:4")]%string).
Proof.
  apply (@load_after_save toy_env "Other" [("Orca", "a.wav:0:4")]%string
           "/data" TRAIN ∅ _ toy_env_wf).
  - discriminate.
  - vm_compute. reflexivity.
Defined.

Lemma np_stack_shape (arrays : list ndarray) (a : ndarray) :
  (x ← np_array arrays; np_drop_axis1 x) = Ok a ->
  head (shape a) = Some (length arrays).
Proof.
  unfold np_array. destruct arrays as [|a0 arrays']; [discriminate|].
  destruct (forallb _ _); [|discriminate].
  cbn [mbind result_bind]. unfold np_drop_axis1. cbn [shape data].
  destruct (shape a0) as [|d1 rest]; [discriminate|].
  destruct (length rest <? 3)%nat; [discriminate|].
  destruct (d1 =? 0)%nat; [discriminate|].
  intros [= <-]. reflexivity.
Qed.

(** X6.  Whatever was stored, the labels [load_features] returns are one
    per stored entry that is not removed, in the stored order; each of
    them is the catch-all label or a stored label that is in neither of the
    two class lists; and the array returned has as many rows as there are
    labels. *)
Theorem load_filters_and_renames (OTHER_CLASS data_path : string) (d : DatasetType)
  (remove_classes other_classes : list string) (fs : filesystem)
  (features : ndarray) (labels : list string) :
  load_features OTHER_CLASS data_path (Some d) remove_classes other_classes fs
    = Returned (features, labels) ->
  exists stored,
    read_features fs data_path d = Some stored /\
    length labels = length (remove_items remove_classes stored) /\
    head (shape features) = Some (length labels) /\
    Forall2 (fun item label =>
               label = if label_in (fst item) other_classes then OTHER_CLASS else fst item)
            (remove_items remove_classes stored) labels /\
    Forall (fun label =>
              label = OTHER_CLASS \/
              (In label (map fst stored) /\
               label_in label remove_classes = false /\
               label_in label other_classes = false)) labels.
Proof.
  intros Hload.
  destruct (read_features fs data_path d) as [stored|] eqn:Hread.
  2:{ unfold load_features, os_path_exists in Hload. unfold read_features in Hread.
      rewrite Hread in Hload. rewrite bool_decide_eq_false_2 in Hload; [discriminate|].
      intros [? Hx]. discriminate Hx. }
  exists stored. split; [reflexivity|].
  rewrite (load_features_stored _ _ _ _ _ _ stored Hread) in Hload. cbv zeta in Hload.
  set (kept_items := remove_items remove_classes stored) in *.
  destruct (rename_items OTHER_CLASS other_classes kept_items) as [|r rs] eqn:Er;
    [discriminate|].
  rewrite <- Er in Hload.
  destruct (_ ← np_array _; _) as [a|e] eqn:Ea; [|discriminate].
  injection Hload as <- <-.
  apply np_stack_shape in Ea. rewrite length_map in Ea.
  unfold rename_items in Ea |- *. rewrite length_map in Ea. rewrite !length_map.
  split; [reflexivity|]. split; [exact Ea|]. split.
  - rewrite map_map. generalize kept_items. intros l.
    induction l as [|item l IH]; simpl; constructor; [|exact IH].
    destruct (label_in item.1 other_classes); reflexivity.
  - rewrite map_map. apply Forall_forall. intros label Hin.
    apply list_elem_of_In, in_map_iff in Hin as (item & <- & Hitem).
    apply list_elem_of_In in Hitem. unfold kept_items, remove_items in Hitem.
    apply list_elem_of_filter in Hitem as [Hrm Hst].
    destruct (label_in item.1 other_classes) eqn:Eo; simpl; [left; reflexivity|].
    right. split; [|auto].
    apply in_map. apply list_elem_of_In. exact Hst.
Qed.

Lemma load_filters_and_renames_witness :
  let zeros := {| shape := [1; 2; 2; 1]%nat; data := replicate 4 f64_zero |} in
  let fs : filesystem :=
    {[ "/data/TEST.features"%string := [("Orca", zeros); ("Noise", zeros); ("Seal", zeros)]%string ]} in
  exists stored,
    read_features fs "/data" TEST = Some stored /\
    length ["Orca"; "Other"]%string = length (remove_items ["Noise"%string] stored) /\
    head (shape {| shape := [2; 2; 2; 1]%nat; data := replicate 8 f64_zero |})
      = Some (length ["Orca"; "Other"]%string) /\
    Forall2 (fun item label =>
               label = if label_in (fst item) ["Seal"%string] then "Other"%string else fst item)
            (remove_items ["Noise"%string] stored) ["Orca"; "Other"]%string /\
    Forall (fun label =>
              label = "Other"%string \/
              (In label (map fst stored) /\
               label_in label ["Noise"%string] = false /\
               label_in label ["Seal"%string] = false)) ["Orca"; "Other"]%string.
Proof.
  intros zeros fs.
  apply (load_filters_and_renames "Other" "/data" TEST ["Noise"%string] ["Seal"%string] fs).
  vm_compute. reflexivity.
Defined.

(** X7.  [load_features] raises when there is nothing to return: the bare
    [Exception] when the feature file of the split does not exist, and
    [ValueError] (from unpacking an empty [zip]) when the file holds no
    entry or every entry is of a removed class. *)
Theorem load_raises_without_entries (OTHER_CLASS data_path : string) (d : DatasetType)
  (remove_classes other_classes : list string) (fs : filesystem) :
  (read_features fs data_path d = None ->
   load_features OTHER_CLASS data_path (Some d) remove_classes other_classes fs
     = Raised DatafilesMissing) /\
  (forall stored,
     read_features fs data_path d = Some stored ->
     Forall (fun item => label_in (fst item) remove_classes = true) stored ->
     load_features OTHER_CLASS data_path (Some d) remove_classes other_classes fs
       = Raised (Builtin ValueError)).
Proof.
  split.
  - intros Hread. unfold load_features, os_path_exists. unfold read_features in Hread.
    rewrite Hread. rewrite bool_decide_eq_false_2; [reflexivity|].
    intros [? Hx]. discriminate Hx.
  - intros stored Hread Hall.
    rewrite (load_features_stored _ _ _ _ _ _ stored Hread). cbv zeta.
    assert (Hnil : remove_items remove_classes stored = []).
    { unfold remove_items. clear Hread.
      induction Hall as [|item l Hi _ IH]; [reflexivity|].
      rewrite filter_cons_False; [exact IH|]. rewrite Hi. discriminate. }
    rewrite Hnil. reflexivity.
Qed.

(** ** Quantization and extraction *)

(** X8.  The descriptors of [_quantize_sample] are read back by
    [extract_segment_features] as they were written: for a file name
    without a colon, every entry carries the label and a descriptor whose
    three fields are the file, a start frame and the segment length, and
    the slice they name lies within the file. *)
Theorem quantized_entries_read_back (label file : string) (sample_len max_len : pynum)
  (wav : SoundFile) (l : list (string * string)) :
  _quantize_sample label file sample_len max_len wav = Ok l ->
  colon_free file = true ->
  Forall (fun entry =>
            fst entry = label /\
            exists start m,
              segment_fields (snd entry) = Ok (file, start, m) /\
              min_frames_of sample_len wav = Ok m /\
              0 <= start /\ 0 < m /\ start + m <= frames wav) l.
Proof.
  intros Hq Hfile.
  destruct (min_frames_of sample_len wav) as [m|e] eqn:Hm;
    [|unfold _quantize_sample in Hq; rewrite Hm in Hq; discriminate Hq].
  destruct (Z.le_gt_cases m 0) as [Hneg|Hpos].
  - rewrite (quantize_negative _ _ _ _ _ m l Hm Hneg Hq). constructor.
  - rewrite (quantize_spec _ _ _ _ _ m Hm Hpos) in Hq. injection Hq as <-.
    apply Forall_forall. intros entry Hin.
    apply list_elem_of_In, in_map_iff in Hin as (i & <- & Hi).
    apply in_seq in Hi. cbn [fst snd]. split; [reflexivity|].
    exists (Z.of_nat i * m), m.
    split; [apply segment_fields_format; exact Hfile|].
    split; [reflexivity|].
    destruct (Z.gtb_spec (frames wav) m); [|lia].
    pose proof (ceil_div_bounds (frames wav) m Hpos) as Hb. nia.
Qed.

Lemma quantized_entries_read_back_witness :
  Forall (fun entry =>
            fst entry = "Orca"%string /\
            exists start m,
              segment_fields (snd entry) = Ok ("f.wav"%string, start, m) /\
              min_frames_of (PyInt 2) {| samplerate := 1; frames := 5 |} = Ok m /\
              0 <= start /\ 0 < m /\
              start + m <= frames {| samplerate := 1; frames := 5 |})
         [("Orca", "f.wav:0:2"); ("Orca", "f.wav:2:2")]%string.
Proof.
  apply (quantized_entries_read_back "Orca" "f.wav" (PyInt 2) (PyInt 600)
           {| samplerate := 1; frames := 5 |}).
  - vm_compute. reflexivity.
  - reflexivity.
Defined.

(** X9.  [_quantize_sample] raises when the segment length is not
    positive: [ZeroDivisionError] (from [np.arange]) when it is 0 frames and
    the file has frames, and [IndexError] (from deleting the last entry of
    an empty list) when it is negative. *)
Theorem quantize_raises_without_length (label file : string) (sample_len max_len : pynum)
  (wav : SoundFile) (m : Z) :
  min_frames_of sample_len wav = Ok m ->
  (m = 0 -> 0 < frames wav ->
   _quantize_sample label file sample_len max_len wav = Raise ZeroDivisionError) /\
  (m < 0 -> 0 <= frames wav ->
   _quantize_sample label file sample_len max_len wav = Raise IndexError).
Proof.
  intros Hm. unfold _quantize_sample. rewrite Hm. cbn [mbind result_bind]. split.
  - intros -> HF. destruct (Z.gtb_spec (frames wav) 0); [|lia]. reflexivity.
  - intros Hneg HF. destruct (Z.gtb_spec (frames wav) m); [|lia].
    unfold np_arange. destruct (Z.eqb_spec m 0); [lia|].
    cbn [mbind result_bind]. rewrite Z.sub_0_r.
    assert (Hlen : ceil_div (frames wav) m <= 0).
    { unfold ceil_div.
      pose proof (Z.div_mod (- frames wav) m ltac:(lia)) as Hdm.
      pose proof (Z.mod_neg_bound (- frames wav) m ltac:(lia)) as Hmod. nia. }
    replace (Z.to_nat (ceil_div (frames wav) m)) with O by lia. reflexivity.
Qed.

Lemma quantize_raises_without_length_witness :
  (0 = 0 -> 0 < frames {| samplerate := 16000; frames := 5 |} ->
   _quantize_sample "Orca" "f.wav" (PyInt 0) (PyInt 600)
     {| samplerate := 16000; frames := 5 |} = Raise ZeroDivisionError) /\
  (0 < 0 -> 0 <= frames {| samplerate := 16000; frames := 5 |} ->
   _quantize_sample "Orca" "f.wav" (PyInt 0) (PyInt 600)
     {| samplerate := 16000; frames := 5 |} = Raise IndexError).
Proof.
  apply (quantize_raises_without_length "Orca" "f.wav" (PyInt 0) (PyInt 600)
           {| samplerate := 16000; frames := 5 |} 0).
  reflexivity.
Defined.

(** X10.  For a positive segment length [m] and a file of more than [m]
    frames, the segments tile the file from frame 0 without a gap, the
    [i]-th one starting at frame [i * m], and what is left out at the end
    is at least one frame and at most [m] frames. *)
Theorem quantize_tiles_the_file (label file : string) (sample_len max_len : pynum)
  (wav : SoundFile) (m : Z) :
  min_frames_of sample_len wav = Ok m -> 0 < m -> m < frames wav ->
  exists l,
    _quantize_sample label file sample_len max_len wav = Ok l /\
    (forall (i : nat) entry, l !! i = Some entry ->
       entry = (label, format_segment file (Z.of_nat i * m) m)) /\
    0 < frames wav - Z.of_nat (length l) * m <= m.
Proof.
  intros Hm Hpos HF. eexists. split; [apply (quantize_spec _ _ _ _ _ m Hm Hpos)|].
  destruct (Z.gtb_spec (frames wav) m); [|lia].
  pose proof (ceil_div_bounds (frames wav) m Hpos) as Hb.
  assert (Hc : 2 <= ceil_div (frames wav) m) by nia.
  split.
  - intros i entry Hi. rewrite list_lookup_fmap in Hi.
    destruct (seq 0 _ !! i) as [i'|] eqn:Ei; [|discriminate Hi].
    apply lookup_seq in Ei as [-> _]. injection Hi as <-. reflexivity.
  - rewrite length_map, length_seq, Z2Nat.id by lia. lia.
Qed.

Lemma quantize_tiles_the_file_witness :
  exists l,
    _quantize_sample "Orca" "f.wav" (PyInt 2) (PyInt 600)
      {| samplerate := 16000; frames := 80000 |} = Ok l /\
    (forall (i : nat) entry, l !! i = Some entry ->
       entry = ("Orca"%string, format_segment "f.wav" (Z.of_nat i * 32000) 32000)) /\
    0 < frames {| samplerate := 16000; frames := 80000 |} - Z.of_nat (length l) * 32000
      <= 32000.
Proof.
  apply (quantize_tiles_the_file "Orca" "f.wav" (PyInt 2) (PyInt 600)
           {| samplerate := 16000; frames := 80000 |} 32000); reflexivity.
Defined.

(** X11.  A descriptor without a colon has no start field:
    [extract_segment_features] raises [IndexError] for it, whatever the
    collaborators are. *)
Theorem extract_needs_three_fields `{MelEnv} (segment : string) :
  colon_free segment = true ->
  extract_segment_features segment = Raise IndexError.
Proof.
  intros Hc. unfold extract_segment_features, segment_spectrogram, segment_fields.
  rewrite (str_split_free ":" segment Hc). reflexivity.
Qed.

Lemma extract_needs_three_fields_witness :
  @extract_segment_features toy_env "f.wav" = Raise IndexError.
Proof. apply (@extract_needs_three_fields toy_env "f.wav"). reflexivity. Defined.

(** X12.  Whatever the segment, an example that is returned has the fixed
    shape [(1, NUM_FRAMES, NUM_BANDS, 1)] and exactly
    [NUM_FRAMES * NUM_BANDS] elements, provided the framed spectrogram is a
    well-formed array. *)
Theorem extracted_example_is_canonical `{MelEnv} (segment : string) (ex X : ndarray) :
  segment_spectrogram segment = Ok ex -> wf_array ex ->
  extract_segment_features segment = Ok X ->
  canonical X.
Proof. apply extract_canonical. Qed.

Lemma extracted_example_is_canonical_witness :
  @canonical toy_env {| shape := [1; 2; 2; 1]%nat; data := replicate 4 f64_zero |}.
Proof.
  apply (@extracted_example_is_canonical toy_env "a.wav:0:2"
           {| shape := [0; 2; 2]%nat; data := [] |}).
  - vm_compute. reflexivity.
  - reflexivity.
  - vm_compute. reflexivity.
Defined.

Lemma Forall2_In_l {A B} (P : A -> B -> Prop) (l : list A) (k : list B) (a : A) :
  Forall2 P l k -> In a l -> exists b, In b k /\ P a b.
Proof.
  induction 1 as [|x y l k Hxy _ IH]; intros Hin; [destruct Hin|].
  destruct Hin as [->|Hin].
  - exists y. split; [left; reflexivity|exact Hxy].
  - destruct (IH Hin) as (b & Hb & Hab). exists b. split; [right; exact Hb|exact Hab].
Qed.

Lemma Forall2_In_r {A B} (P : A -> B -> Prop) (l : list A) (k : list B) (b : B) :
  Forall2 P l k -> In b k -> exists a, In a l /\ P a b.
Proof.
  induction 1 as [|x y l k Hxy _ IH]; intros Hin; [destruct Hin|].
  destruct Hin as [->|Hin].
  - exists x. split; [left; reflexivity|exact Hxy].
  - destruct (IH Hin) as (a & Ha & Hab). exists a. split; [right; exact Ha|exact Hab].
Qed.

Lemma quantize_labels (label file : string) (sample_len max_len : pynum)
  (wav : SoundFile) (l : list (string * string)) :
  _quantize_sample label file sample_len max_len wav = Ok l ->
  Forall (fun entry => fst entry = label) l.
Proof.
  intros Hq.
  destruct (min_frames_of sample_len wav) as [m|e] eqn:Hm;
    [|unfold _quantize_sample in Hq; rewrite Hm in Hq; discriminate Hq].
  destruct (Z.le_gt_cases m 0) as [Hneg|Hpos].
  - rewrite (quantize_negative _ _ _ _ _ m l Hm Hneg Hq). constructor.
  - rewrite (quantize_spec _ _ _ _ _ m Hm Hpos) in Hq. injection Hq as <-.
    apply Forall_forall. intros entry Hin.
    apply list_elem_of_In, in_map_iff in Hin as (i & <- & _). reflexivity.
Qed.

(** X13.  When [_flatten_and_quantize_dataset] returns, every file of the
    dataset was opened and quantized, and its result holds exactly the
    segments of those files, each under the label of its file. *)
Theorem flattened_dataset_segments (soundfile : string -> result SoundFile)
  (sample_len max_len : pynum) (dataset : list (string * list string))
  (out : list (string * string)) :
  _flatten_and_quantize_dataset soundfile sample_len max_len dataset = Ok out ->
  (forall label files file, In (label, files) dataset -> In file files ->
     exists wav segments,
       soundfile file = Ok wav /\
       _quantize_sample label file sample_len max_len wav = Ok segments) /\
  (forall entry, In entry out <->
     exists files file wav segments,
       In (fst entry, files) dataset /\ In file files /\
       soundfile file = Ok wav /\
       _quantize_sample (fst entry) file sample_len max_len wav = Ok segments /\
       In entry segments).
Proof.
  unfold _flatten_and_quantize_dataset, _quantize_samples.
  set (flat := concat (map (fun '(label, files) => map (fun file => (label, file)) files)
                           dataset)).
  set (q := fun '(label, file) =>
              wav_file ← soundfile file;
              _quantize_sample label file sample_len max_len wav_file).
  assert (Hflat : forall label file,
            In (label, file) flat <-> exists files, In (label, files) dataset /\ In file files).
  { intros label file. unfold flat. rewrite in_concat. split.
    - intros (l & Hl & Hin). apply in_map_iff in Hl as ([label' files] & <- & Hd).
      apply in_map_iff in Hin as (f & [= <- <-] & Hf). eauto.
    - intros (files & Hd & Hf). exists (map (fun file => (label, file)) files). split.
      + apply in_map_iff. exists (label, files). auto.
      + apply in_map. exact Hf. }
  destruct (result_map q flat) as [per_file|e] eqn:Eq; [|discriminate].
  cbn [mbind result_bind]. intros [= <-].
  apply result_map_Forall2 in Eq.
  assert (Hq : forall label file segments,
            q (label, file) = Ok segments <->
            exists wav, soundfile file = Ok wav /\
                        _quantize_sample label file sample_len max_len wav = Ok segments).
  { intros label file segments. unfold q. destruct (soundfile file) as [wav|e'].
    - cbn [mbind result_bind]. split; [eauto|]. intros (w & [= <-] & Hw). exact Hw.
    - cbn [mbind result_bind]. split; [discriminate|]. intros (w & Hw & _). discriminate Hw. }
  split.
  - intros label files file Hd Hf.
    assert (Hin : In (label, file) flat) by (apply Hflat; eauto).
    destruct (Forall2_In_l _ _ _ _ Eq Hin) as (segments & _ & Hs).
    apply Hq in Hs as (wav & Hw & Hs). eauto.
  - intros entry. rewrite in_concat. split.
    + intros (segments & Hp & He).
      destruct (Forall2_In_r _ _ _ _ Eq Hp) as ([label file] & Hin & Hs).
      apply Hq in Hs as (wav & Hw & Hs).
      pose proof (quantize_labels _ _ _ _ _ _ Hs) as Hl.
      rewrite Forall_forall in Hl.
      rewrite (Hl entry (proj2 (list_elem_of_In _ _) He)).
      apply Hflat in Hin as (files & Hd & Hf).
      exists files, file, wav, segments. auto.
    + intros (files & file & wav & segments & Hd & Hf & Hw & Hs & He).
      assert (Hin : In (fst entry, file) flat) by (apply Hflat; eauto).
      destruct (Forall2_In_l _ _ _ _ Eq Hin) as (segments' & Hp & Hs').
      apply Hq in Hs' as (wav' & Hw' & Hs').
      assert (wav' = wav) by congruence. subst wav'.
      assert (segments' = segments) by congruence. subst segments'.
      exists segments. auto.
Qed.

Lemma flattened_dataset_segments_witness :
  let soundfile := fun _ : string => Ok {| samplerate := 1; frames := 5 |} in
  (forall label files file, In (label, files) [("Orca", ["f.wav"])]%string -> In file files ->
     exists wav segments,
       soundfile file = Ok wav /\
       _quantize_sample label file (PyInt 2) (PyInt 600) wav = Ok segments) /\
  (forall entry, In entry [("Orca", "f.wav:0:2"); ("Orca", "f.wav:2:2")]%string <->
     exists files file wav segments,
       In (fst entry, files) [("Orca", ["f.wav"])]%string /\ In file files /\
       soundfile file = Ok wav /\
       _quantize_sample (fst entry) file (PyInt 2) (PyInt 600) wav = Ok segments /\
       In entry segments).
Proof.
  intros soundfile.
  apply (flattened_dataset_segments soundfile (PyInt 2) (PyInt 600)
           [("Orca", ["f.wav"])]%string).
  vm_compute. reflexivity.
Defined.

(** ** Indexing *)

Section DictMore.
Context {V : Type}.
Implicit Types (d : list (string * V)).

Lemma dict_set_In d k v k' v' :
In (k', v') (dict_set k v d) -> (k' = k /\ v' = v) \/ In (k', v') d.
Proof.
induction d as [|[k0 v0] d IH]; simpl.
- intros [[= <- <-]|[]]. auto.
- destruct (String.eqb_spec k0 k) as [->|Hne]; simpl.
  + intros [[= <- <-]|Hin]; auto.
  + intros [Heq|Hin]; [auto|]. destruct (IH Hin); auto.
Qed.

Lemma dict_get_Some_In d k v : dict_get d k = Some v -> In (k, v) d.
Proof.
induction d as [|[k0 v0] d IH]; simpl; [discriminate|].
destruct (String.eqb_spec k0 k) as [->|Hne].
- intros [= <-]. left. reflexivity.
- intros Hg. right. apply IH. exact Hg.
Qed.

Lemma dict_keys_set_new d k v :
~ In k (dict_keys d) -> dict_keys (dict_set k v d) = dict_keys d ++ [k].
Proof.
unfold dict_keys. induction d as [|[k0 v0] d IH]; simpl; intros Hn; [reflexivity|].
destruct (String.eqb_spec k0 k) as [->|Hne].
- exfalso. apply Hn. left. reflexivity.
- simpl. rewrite IH; [reflexivity|]. intros Hin. apply Hn. right. exact Hin.
Qed.
End DictMore.

Lemma dict_extend_In label paths d l fs :
  In (l, fs) (dict_extend label paths d) ->
  (l = label /\ fs = default [] (dict_get d label) ++ paths) \/ In (l, fs) d.
Proof. unfold dict_extend. apply dict_set_In. Qed.

Lemma file_count_extend label paths d :
  file_count (dict_extend label paths d) = (file_count d + length paths)%nat.
Proof.
  unfold dict_extend, file_count.
  induction d as [|[k0 v0] d IH]; simpl.
  - lia.
  - destruct (String.eqb_spec k0 label) as [->|Hne]; simpl.
    + rewrite length_app. lia.
    + rewrite IH. lia.
Qed.

(** A step of the walk keeps the keys distinct and the lists non-empty,
    adds the audio files of the directory and only those. *)
Lemma label_files_step_invariant acc entry :
  List.NoDup (dict_keys acc) ->
  Forall (fun e => snd e <> []) acc ->
  List.NoDup (dict_keys (label_files_step acc entry)) /\
  Forall (fun e => snd e <> []) (label_files_step acc entry).
Proof.
  intros Hnd Hne. destruct entry as [dirpath filenames]. unfold label_files_step.
  destruct (filter (fun f => is_wav f = true) filenames) as [|f fs] eqn:Ef; [auto|].
  split.
  - apply dict_keys_set_NoDup. exact Hnd.
  - apply Forall_forall. intros [l v] Hin. apply list_elem_of_In in Hin.
    apply dict_extend_In in Hin as [[-> ->]|Hin].
    + simpl. destruct (default [] _); discriminate.
    + rewrite Forall_forall in Hne. apply (Hne (l, v)). apply list_elem_of_In. exact Hin.
Qed.

Lemma label_files_invariant walk : forall acc,
  List.NoDup (dict_keys acc) ->
  Forall (fun e => snd e <> []) acc ->
  List.NoDup (dict_keys (foldl label_files_step acc walk)) /\
  Forall (fun e => snd e <> []) (foldl label_files_step acc walk).
Proof.
  induction walk as [|entry walk IH]; intros acc Hnd Hne; simpl; [auto|].
  destruct (label_files_step_invariant acc entry Hnd Hne) as [Hnd' Hne'].
  apply IH; assumption.
Qed.

Lemma label_files_step_origin walk acc entry :
  Forall (fun e => Forall (indexed_from (walk ++ [entry]) (fst e)) (snd e)) acc ->
  Forall (fun e => Forall (indexed_from (walk ++ [entry]) (fst e)) (snd e))
         (label_files_step acc entry).
Proof.
  intros Hacc. destruct entry as [dirpath filenames]. unfold label_files_step.
  destruct (filter (fun f => is_wav f = true) filenames) as [|f0 fs] eqn:Ef; [exact Hacc|].
  rewrite <- Ef. clear Ef.
  apply Forall_forall. intros [l v] Hin. apply list_elem_of_In in Hin.
  apply dict_extend_In in Hin as [[-> ->]|Hin].
  - cbn [fst snd]. apply Forall_app. split.
    + destruct (dict_get acc (label_of_dirpath dirpath)) as [old|] eqn:Eg; [|constructor].
      apply dict_get_Some_In in Eg. rewrite Forall_forall in Hacc.
      apply (Hacc (label_of_dirpath dirpath, old)). apply list_elem_of_In. exact Eg.
    + apply Forall_forall. intros path Hp.
      apply list_elem_of_In, in_map_iff in Hp as (f & <- & Hf).
      apply list_elem_of_In, list_elem_of_filter in Hf as [Hw Hf].
      exists dirpath, filenames, f. split; [apply in_or_app; right; left; reflexivity|].
      split; [apply list_elem_of_In; exact Hf|]. auto.
  - rewrite Forall_forall in Hacc. apply (Hacc (l, v)). apply list_elem_of_In. exact Hin.
Qed.

Lemma indexed_from_mono walk entry label path :
  indexed_from walk label path -> indexed_from (walk ++ [entry]) label path.
Proof.
  intros (d & fs & f & Hin & H'). exists d, fs, f. split; [|exact H'].
  apply in_or_app. left. exact Hin.
Qed.

Lemma label_files_origin walk :
  Forall (fun e => Forall (indexed_from walk (fst e)) (snd e)) (label_files walk).
Proof.
  unfold label_files. induction walk as [|entry walk IH] using rev_ind.
  - constructor.
  - rewrite foldl_app. simpl. apply label_files_step_origin.
    eapply Forall_impl; [exact IH|]. intros e He.
    eapply Forall_impl; [exact He|]. intros path. apply indexed_from_mono.
Qed.

Lemma label_files_count walk : forall acc,
  file_count (foldl label_files_step acc walk) = (file_count acc + wav_count walk)%nat.
Proof.
  induction walk as [|[dirpath filenames] walk IH]; intros acc; simpl.
  - unfold wav_count. simpl. lia.
  - rewrite IH. unfold wav_count. simpl. unfold label_files_step.
    destruct (filter (fun f => is_wav f = true) filenames) as [|f fs] eqn:Ef.
    + simpl. lia.
    + rewrite file_count_extend, length_map. simpl. lia.
Qed.

(** X14.  The collection [label_files] builds is a proper dictionary, as
    the split requires: its labels are distinct, and no label has an empty
    file list. *)
Theorem label_files_is_a_dict (walk : list (string * list string)) :
  List.NoDup (dict_keys (label_files walk)) /\
  Forall (fun entry => snd entry <> []) (label_files walk).
Proof.
  unfold label_files. apply label_files_invariant; constructor.
Qed.

(** X15.  Only audio files are indexed: every path listed under a label
    is [os.path.join(dirpath, f)] for a file name [f] with the extension
    [.wav], in any case, of a directory of the walk whose label it is. *)
Theorem label_files_lists_only_wav (walk : list (string * list string)) :
  Forall (fun entry =>
            Forall (fun path =>
                      exists dirpath filenames f,
                        In (dirpath, filenames) walk /\ In f filenames /\
                        is_wav f = true /\
                        path = os_path_join dirpath f /\
                        fst entry = label_of_dirpath dirpath) (snd entry))
         (label_files walk).
Proof. exact (label_files_origin walk). Qed.

(** X16.  Every audio file of the walk is listed once: the file lists of
    the collection have together as many entries as the walk has [.wav]
    file names. *)
Theorem label_files_counts_every_wav (walk : list (string * list string)) :
  file_count (label_files walk) = wav_count walk.
Proof. unfold label_files. rewrite label_files_count. reflexivity. Qed.

(** ** The label encoder on arbitrary class lists *)

Lemma leb_iff (a b : string) :
  String.leb a b = true <-> String.ltb a b = true \/ a = b.
Proof.
  unfold String.leb, String.ltb.
  destruct (String.compare a b) eqn:E; split; try auto; try discriminate.
  - intros _. right. apply String.compare_eq_iff. exact E.
  - intros [Hd | ->]; [discriminate Hd|].
    rewrite string_compare_refl in E. discriminate E.
Qed.

Lemma leb_trans (a b c : string) :
  String.leb a b = true -> String.leb b c = true -> String.leb a c = true.
Proof.
  rewrite !leb_iff. intros [Hab| ->] [Hbc| ->]; auto.
  left. eapply ltb_trans; eassumption.
Qed.

Lemma ltb_leb_trans (a b c : string) :
  String.ltb a b = true -> String.leb b c = true -> String.ltb a c = true.
Proof.
  rewrite leb_iff. intros Hab [Hbc| <-]; [|exact Hab]. eapply ltb_trans; eassumption.
Qed.

Lemma insert_sorted_nondecreasing s l :
  nondecreasing l -> nondecreasing (insert_sorted s l).
Proof.
  induction 1 as [|x l Hl IH Hx]; simpl.
  - constructor; constructor.
  - destruct (String.leb s x) eqn:E.
    + constructor; [constructor; assumption|].
      constructor; [exact E|].
      eapply Forall_impl; [exact Hx|]. intros y Hy. eapply leb_trans; eassumption.
    + constructor; [exact IH|].
      apply Forall_forall. intros y Hy. apply list_elem_of_In in Hy.
      apply (Permutation_in _ (insert_sorted_Permutation s l)) in Hy.
      destruct Hy as [<- | Hy].
      * apply leb_iff. left. apply not_leb_ltb. exact E.
      * rewrite Forall_forall in Hx. apply Hx. apply list_elem_of_In. exact Hy.
Qed.

Lemma sort_nondecreasing l : nondecreasing (foldr insert_sorted [] l).
Proof.
  induction l as [|x l IH]; simpl; [constructor|].
  apply insert_sorted_nondecreasing. exact IH.
Qed.

Lemma dedup_adjacent_In l x : In x (dedup_adjacent l) <-> In x l.
Proof.
  induction l as [|a l IH]; [reflexivity|].
  cbn [dedup_adjacent]. destruct l as [|b l'].
  - reflexivity.
  - destruct (String.eqb_spec a b) as [-> | Hne].
    + rewrite IH. simpl. intuition.
    + change (In x (a :: dedup_adjacent (b :: l')) <-> In x (a :: b :: l')).
      simpl in *. rewrite IH. reflexivity.
Qed.

Lemma dedup_adjacent_increasing l : nondecreasing l -> increasing (dedup_adjacent l).
Proof.
  induction 1 as [|a l Hl IH Ha]; [constructor|].
  cbn [dedup_adjacent]. destruct l as [|b l'].
  - constructor; constructor.
  - destruct (String.eqb_spec a b) as [-> | Hne]; [exact IH|].
    constructor; [exact IH|].
    apply Forall_forall. intros y Hy. apply list_elem_of_In in Hy.
    apply (proj1 (dedup_adjacent_In _ _)) in Hy.
    inversion Ha as [|? ? Hab Ha']; subst.
    assert (Hlt : String.ltb a b = true) by (apply leb_ltb; assumption).
    apply in_inv in Hy. destruct Hy as [<- | Hy]; [exact Hlt|].
    inversion Hl as [|? ? _ Hb]; subst.
    rewrite Forall_forall in Hb.
    eapply ltb_leb_trans; [exact Hlt|]. apply Hb. apply list_elem_of_In. exact Hy.
Qed.

Lemma np_unique_In l x : In x (np_unique l) <-> In x l.
Proof.
  unfold np_unique. rewrite dedup_adjacent_In. split; intros Hin.
  - apply (Permutation_in _ (sort_Permutation l)). exact Hin.
  - apply (Permutation_in _ (Permutation_sym (sort_Permutation l))). exact Hin.
Qed.

Lemma np_unique_increasing l : increasing (np_unique l).
Proof. apply dedup_adjacent_increasing, sort_nondecreasing. Qed.

(** Two increasing lists with the same elements are equal. *)
Lemma increasing_unique l : forall l',
  increasing l -> increasing l' -> (forall x, In x l <-> In x l') -> l = l'.
Proof.
  induction l as [|a l IH]; intros [|b l'] Hl Hl' Hsame.
  - reflexivity.
  - exfalso. apply (proj2 (Hsame b)). left. reflexivity.
  - exfalso. apply (proj1 (Hsame a)). left. reflexivity.
  - inversion Hl as [|? ? Hl1 Ha]; subst. inversion Hl' as [|? ? Hl1' Hb]; subst.
    rewrite Forall_forall in Ha, Hb.
    assert (Hab : a = b).
    { destruct (proj1 (Hsame a) (or_introl eq_refl)) as [Heq|Hin]; [auto|].
      destruct (proj2 (Hsame b) (or_introl eq_refl)) as [Heq|Hin']; [auto|].
      apply list_elem_of_In in Hin, Hin'.
      pose proof (Hb a Hin) as H1. pose proof (Ha b Hin') as H2.
      rewrite (ltb_asym _ _ H1) in H2. discriminate H2. }
    subst b. f_equal. apply IH; [assumption|assumption|].
    intros x. split; intros Hin.
    + destruct (proj1 (Hsame x) (or_intror Hin)) as [<- | Hx]; [|exact Hx].
      apply list_elem_of_In in Hin. pose proof (Ha a Hin) as Hc.
      rewrite ltb_irrefl in Hc. discriminate Hc.
    + destruct (proj2 (Hsame x) (or_intror Hin)) as [<- | Hx]; [|exact Hx].
      apply list_elem_of_In in Hin. pose proof (Hb a Hin) as Hc.
      rewrite ltb_irrefl in Hc. discriminate Hc.
Qed.


(** X17.  For any list of classes, with repetitions or not, the classes
    of the fitted encoder are the distinct classes in strictly increasing
    lexicographic order. *)
Theorem fitted_classes_are_sorted_distinct (classes : list string) :
  increasing (classes_ (create_label_encoding classes)) /\
  List.NoDup (classes_ (create_label_encoding classes)) /\
  (forall c, In c (classes_ (create_label_encoding classes)) <-> In c classes).
Proof.
  unfold create_label_encoding, fit. cbn [classes_].
  pose proof (np_unique_increasing classes) as Hinc.
  split; [exact Hinc|]. split; [|apply np_unique_In].
  induction Hinc as [|a l _ IH Ha]; constructor; [|exact IH].
  intros Hin. rewrite Forall_forall in Ha. apply list_elem_of_In in Hin.
  pose proof (Ha a Hin) as Hc. rewrite ltb_irrefl in Hc. discriminate Hc.
Qed.

(** X18.  The encoding depends on the set of classes only: two lists with
    the same elements, in any order and with any repetitions, give the
    same encoder, hence the same identifier for every label. *)
Theorem encoding_depends_on_the_set (classes classes' : list string) :
  (forall c, In c classes <-> In c classes') ->
  create_label_encoding classes = create_label_encoding classes'.
Proof.
  intros Hsame. unfold create_label_encoding, fit. f_equal.
  apply increasing_unique; try apply np_unique_increasing.
  intros x. rewrite !np_unique_In. apply Hsame.
Qed.

Lemma encoding_depends_on_the_set_witness :
  create_label_encoding ["B"; "A"; "C"; "A"]%string =
  create_label_encoding ["C"; "B"; "A"]%string.
Proof.
  apply (encoding_depends_on_the_set ["B"; "A"; "C"; "A"]%string ["C"; "B"; "A"]%string).
  intros c. simpl. intuition.
Defined.




(** ** The split on arbitrary collections *)

Section SplitMore.
Context {G : Type} `{RandomGen G}.

Lemma split_items_filter tp vp items : forall ds (g : G),
split_items items tp vp ds g = split_items (List.filter kept items) tp vp ds g.
Proof.
induction items as [|[label files] rest IH]; intros ds g; [reflexivity|].
cbn [List.filter split_items].
change (kept (label, files)) with (negb (length files <? 10)%nat).
destruct (length files <? 10)%nat eqn:E; cbn [negb].
- apply IH.
- cbn [split_items]. rewrite E.
  destruct (split_label label files tp vp ds g) as [[ds1 g1]|e]; [|reflexivity].
  cbn [mbind result_bind]. apply IH.
Qed.

Lemma split_items_small tp vp items : forall ds (g : G),
Forall (fun entry => (length (snd entry) < 10)%nat) items ->
split_items items tp vp ds g = Ok (ds, g).
Proof.
induction items as [|[label files] rest IH]; intros ds g Hall; [reflexivity|].
inversion Hall as [|? ? Hlt Hall']; subst. cbn [snd] in Hlt.
cbn [split_items]. apply Nat.ltb_lt in Hlt. rewrite Hlt. apply IH. exact Hall'.
Qed.

Lemma split_label_keys label files tp vp ds (g : G) ds1 g1 :
split_label label files tp vp ds g = Ok (ds1, g1) ->
exists tr va te,
  ds_train ds1 = dict_set label tr (ds_train ds) /\
  ds_validate ds1 = dict_set label va (ds_validate ds) /\
  ds_test ds1 = dict_set label te (ds_test ds).
Proof.
unfold split_label. destruct (random_shuffle files g) as [sh g'].
destruct (num_files (length sh) tp) as [a|e]; [|discriminate].
cbn [mbind result_bind].
destruct (num_files (length sh) vp) as [b|e]; [|discriminate].
cbn [mbind result_bind]. intros [= <- <-]. cbn [ds_train ds_validate ds_test].
eexists _, _, _. repeat split.
Qed.

Lemma split_items_keys tp vp items : forall ds (g : G) ds' g' K,
List.NoDup (dict_keys items) ->
(forall k, In k (dict_keys items) -> ~ In k K) ->
dict_keys (ds_train ds) = K -> dict_keys (ds_validate ds) = K ->
dict_keys (ds_test ds) = K ->
split_items items tp vp ds g = Ok (ds', g') ->
dict_keys (ds_train ds') = K ++ dict_keys (List.filter kept items) /\
dict_keys (ds_validate ds') = K ++ dict_keys (List.filter kept items) /\
dict_keys (ds_test ds') = K ++ dict_keys (List.filter kept items).
Proof.
induction items as [|[label files] rest IH]; intros ds g ds' g' K Hnd Hfresh Htr Hva Hte.
- cbn [split_items List.filter]. intros [= <- <-].
  unfold dict_keys at 2 4 6. cbn [map]. rewrite !app_nil_r. auto.
- cbn [dict_keys map fst] in Hnd. apply List.NoDup_cons_iff in Hnd as [Hnin Hnd'].
  assert (Hfresh' : forall k, In k (dict_keys rest) -> ~ In k K).
  { intros k Hk. apply Hfresh. right. exact Hk. }
  cbn [split_items List.filter].
  change (kept (label, files)) with (negb (length files <? 10)%nat).
  destruct (length files <? 10)%nat eqn:E; cbn [negb].
  + intros Hrun. eapply IH; eassumption.
  + destruct (split_label label files tp vp ds g) as [[ds1 g1]|e] eqn:Es; [|discriminate].
    cbn [mbind result_bind]. intros Hrun.
    destruct (split_label_keys _ _ _ _ _ _ _ _ Es) as (tr & va & te & E1 & E2 & E3).
    assert (HK : ~ In label K) by (apply Hfresh; left; reflexivity).
    assert (Hsame : dict_keys ((label, files) :: List.filter kept rest)
                    = [label] ++ dict_keys (List.filter kept rest)) by reflexivity.
    rewrite Hsame, !app_assoc.
    apply (IH ds1 g1 ds' g' (K ++ [label])); try assumption.
    * intros k Hk Hin. apply in_app_or in Hin. destruct Hin as [Hin|[<-|[]]].
      -- exact (Hfresh' k Hk Hin).
      -- exact (Hnin Hk).
    * rewrite E1. rewrite <- Htr. apply dict_keys_set_new. rewrite Htr. exact HK.
    * rewrite E2. rewrite <- Hva. apply dict_keys_set_new. rewrite Hva. exact HK.
    * rewrite E3. rewrite <- Hte. apply dict_keys_set_new. rewrite Hte. exact HK.
Qed.
End SplitMore.

(** X20.  Labels with fewer than ten files play no part in the split:
    the result, the state of the generator included, is the one for the
    collection without them.  When no label has ten files the split is
    empty, draws nothing and cannot fail, whatever the percentages are. *)
Theorem split_ignores_small_labels {G : Type} `{RandomGen G}
  (all_samples : list (string * list string))
  (train_percentage validate_percentage : pynum) (g : G) :
  stratified_split all_samples train_percentage validate_percentage g =
    stratified_split (List.filter kept all_samples) train_percentage validate_percentage g /\
  (Forall (fun entry => (length (snd entry) < 10)%nat) all_samples ->
   stratified_split all_samples train_percentage validate_percentage g
     = Ok (empty_datasets, g)).
Proof.
  unfold stratified_split. split; [apply split_items_filter|apply split_items_small].
Qed.

(** X21.  When the split returns for a collection with distinct labels,
    TRAIN, VALIDATE and TEST have the same labels: the labels with at
    least ten files, in the order of the collection. *)
Theorem split_keys_are_kept_labels {G : Type} `{RandomGen G}
  (all_samples : list (string * list string))
  (train_percentage validate_percentage : pynum) (g g' : G) (ds : datasets) :
  List.NoDup (dict_keys all_samples) ->
  stratified_split all_samples train_percentage validate_percentage g = Ok (ds, g') ->
  dict_keys (ds_train ds) = dict_keys (List.filter kept all_samples) /\
  dict_keys (ds_validate ds) = dict_keys (List.filter kept all_samples) /\
  dict_keys (ds_test ds) = dict_keys (List.filter kept all_samples).
Proof.
  intros Hnd Hrun.
  apply (split_items_keys train_percentage validate_percentage all_samples
           empty_datasets g ds g' [] Hnd); try reflexivity; [|exact Hrun].
  intros k _ [].
Qed.

Lemma split_keys_are_kept_labels_witness :
  let ds := {| ds_train := [("Orca", ["f9"; "f6"; "f0"; "f2"; "f7"; "f5"; "f8"])];
               ds_validate := [("Orca", ["f4"; "f1"])];
               ds_test := [("Orca", ["f3"])] |}%string in
  dict_keys (ds_train ds) = dict_keys (List.filter kept two_labels) /\
  dict_keys (ds_validate ds) = dict_keys (List.filter kept two_labels) /\
  dict_keys (ds_test ds) = dict_keys (List.filter kept two_labels).
Proof.
  intros ds.
  apply (split_keys_are_kept_labels two_labels (PyFloat float_0_70) (PyFloat float_0_20)
           [3; 1; 4; 1; 5; 9; 2; 6; 5]%nat [] ds two_labels_NoDup).
  vm_compute. reflexivity.
Defined.

(** ** [read_files_and_extract_features] *)

Section RunFacts.
Context `{MelEnv}.
Variable soundfile : string -> result SoundFile.
Variables sample_len max_len : pynum.
Variable data_path : string.

Lemma save_datasets_cons d contents rest (fs : filesystem) :
save_datasets soundfile sample_len max_len data_path ((d, contents) :: rest) fs =
match _flatten_and_quantize_dataset soundfile sample_len max_len contents with
| Raise e => (fs, Raise e)
| Ok flattened =>
    match extract_all flattened with
    | Raise e => (delete (features_path data_path d) fs, Raise e)
    | Ok data =>
        save_datasets soundfile sample_len max_len data_path rest
          (<[features_path data_path d := data]> fs)
    end
end.
Proof.
cbn [save_datasets].
destruct (_flatten_and_quantize_dataset soundfile sample_len max_len contents)
  as [flattened|e]; [|reflexivity].
destruct (save_cases flattened data_path d fs) as [(data & Hd & ->)|(e & Hd & ->)];
  rewrite Hd; [|reflexivity].
rewrite insert_delete_eq. reflexivity.
Qed.

Lemma save_datasets_other items : forall (fs : filesystem) p,
(forall d, In d (map fst items) -> p <> features_path data_path d) ->
(save_datasets soundfile sample_len max_len data_path items fs).1 !! p = fs !! p.
Proof.
induction items as [|[d contents] rest IH]; intros fs p Hp; [reflexivity|].
rewrite save_datasets_cons.
assert (Hd : p <> features_path data_path d) by (apply Hp; left; reflexivity).
destruct (_flatten_and_quantize_dataset soundfile sample_len max_len contents)
  as [flattened|e]; [|reflexivity].
destruct (extract_all flattened) as [data|e].
- rewrite IH by (intros d' Hd'; apply Hp; right; exact Hd').
  apply lookup_insert_ne. congruence.
- cbn [fst]. apply lookup_delete_ne. congruence.
Qed.

Lemma save_datasets_returned items : forall (fs : filesystem),
List.NoDup (map fst items) ->
(save_datasets soundfile sample_len max_len data_path items fs).2 = Ok tt ->
Forall (fun item =>
          exists flattened data,
            _flatten_and_quantize_dataset soundfile sample_len max_len (snd item)
              = Ok flattened /\
            extract_all flattened = Ok data /\
            read_features
              (save_datasets soundfile sample_len max_len data_path items fs).1
              data_path (fst item) = Some data) items.
Proof.
induction items as [|[d contents] rest IH]; intros fs Hnd; [constructor|].
apply List.NoDup_cons_iff in Hnd as [Hnin Hnd'].
rewrite save_datasets_cons.
destruct (_flatten_and_quantize_dataset soundfile sample_len max_len contents)
  as [flattened|e] eqn:Ef; [|discriminate].
destruct (extract_all flattened) as [data|e] eqn:Ed; [|discriminate].
intros Hrun. constructor.
- exists flattened, data. cbn [fst snd]. split; [exact Ef|]. split; [exact Ed|].
  unfold read_features. rewrite save_datasets_other.
  + apply lookup_insert_eq.
  + intros d' Hd' Heq. apply features_path_inj in Heq. subst d'. exact (Hnin Hd').
- apply IH; assumption.
Qed.
End RunFacts.

Lemma dataset_types_NoDup (a b c : list (string * list string)) :
  List.NoDup (map fst [(TRAIN, a); (VALIDATE, b); (TEST, c)]).
Proof.
  repeat constructor; cbn; intros Hin;
    repeat (destruct Hin as [Hin|Hin]; [discriminate Hin|]); exact Hin.
Qed.

Lemma string_append_assoc (a b c : string) :
  ((a ++ b) ++ c)%string = (a ++ (b ++ c))%string.
Proof.
  induction a as [|x a IH]; [reflexivity|].
  change (String x ((a ++ b) ++ c) = String x (a ++ (b ++ c)))%string.
  rewrite IH. reflexivity.
Qed.

Lemma backup_path_ne (data_path : string) (d d' : DatasetType) :
  (features_path data_path d ++ "-old")%string <> features_path data_path d'.
Proof.
  unfold features_path, os_path_join.
  assert (Hs : forall x, starts_with_slash (dataset_name x ++ ".features") = false)
    by (intros []; reflexivity).
  rewrite !Hs.
  destruct (str_is_empty data_path || ends_with_slash data_path); intros Heq.
  - rewrite string_append_assoc in Heq.
    apply append_inj_r in Heq. destruct d, d'; discriminate Heq.
  - rewrite !string_append_assoc in Heq.
    apply append_inj_r in Heq. destruct d, d'; discriminate Heq.
Qed.

(** The run with [overwrite] set, or with a feature file missing. *)
Lemma run_cases `{MelEnv} {G : Type} `{RandomGen G} (overwrite : bool)
  (data_path : string) (train_percentage validate_percentage : pynum)
  (walk : list (string * list string)) (soundfile : string -> result SoundFile)
  (sample_len max_len : pynum) (g : G) (fs : filesystem) :
  negb overwrite && features_files_exist fs data_path = false ->
  read_files_and_extract_features overwrite data_path train_percentage validate_percentage
    walk soundfile sample_len max_len g fs =
  match stratified_split (label_files walk) train_percentage validate_percentage g with
  | Raise e => (fs, Raise e)
  | Ok (ds, g') =>
      let saved := save_datasets soundfile sample_len max_len data_path
                     [(TRAIN, ds_train ds); (VALIDATE, ds_validate ds); (TEST, ds_test ds)]
                     fs in
      (saved.1, match saved.2 with Ok _ => Ok g' | Raise e => Raise e end)
  end.
Proof.
  intros Hc. unfold read_files_and_extract_features. rewrite Hc.
  destruct (stratified_split (label_files walk) train_percentage validate_percentage g)
    as [[ds g']|e]; [|reflexivity].
  cbv zeta.
  destruct (save_datasets soundfile sample_len max_len data_path
              [(TRAIN, ds_train ds); (VALIDATE, ds_validate ds); (TEST, ds_test ds)] fs)
    as [fs' [u|e]]; reflexivity.
Qed.

(** X22.  A run that returns with [overwrite] set has split the index of
    the walk and left, for each of TRAIN, VALIDATE and TEST, a feature
    file with one entry per segment of the quantized split, in order and
    under the segment's label; the generator it hands back is the one the
    split left, so quantizing and extracting draw nothing. *)
Theorem run_saves_the_three_splits `{MelEnv} {G : Type} `{RandomGen G}
  (data_path : string) (train_percentage validate_percentage : pynum)
  (walk : list (string * list string)) (soundfile : string -> result SoundFile)
  (sample_len max_len : pynum) (g g' : G) (fs : filesystem) :
  (read_files_and_extract_features true data_path train_percentage validate_percentage
     walk soundfile sample_len max_len g fs).2 = Ok g' ->
  exists ds,
    stratified_split (label_files walk) train_percentage validate_percentage g = Ok (ds, g') /\
    forall d, exists flattened saved,
      _flatten_and_quantize_dataset soundfile sample_len max_len (split_contents ds d)
        = Ok flattened /\
      read_features
        (read_files_and_extract_features true data_path train_percentage validate_percentage
           walk soundfile sample_len max_len g fs).1 data_path d = Some saved /\
      Forall2 (fun segment item =>
                 fst item = fst segment /\
                 extract_segment_features (snd segment) = Ok (snd item)) flattened saved.
Proof.
  rewrite run_cases by reflexivity.
  destruct (stratified_split (label_files walk) train_percentage validate_percentage g)
    as [[ds g1]|e]; [|discriminate].
  cbv zeta. cbn [fst snd].
  destruct ((save_datasets soundfile sample_len max_len data_path
               [(TRAIN, ds_train ds); (VALIDATE, ds_validate ds); (TEST, ds_test ds)] fs).2)
    as [[]|e] eqn:Es; [|discriminate].
  intros [= <-]. exists ds. split; [reflexivity|].
  pose proof (save_datasets_returned soundfile sample_len max_len data_path _ fs
                (dataset_types_NoDup _ _ _) Es) as Hall.
  rewrite !Forall_cons in Hall. destruct Hall as (Htr & Hva & Hte & _).
  cbn [fst snd] in Htr, Hva, Hte.
  intros d.
  assert (Hd : exists flattened data,
            _flatten_and_quantize_dataset soundfile sample_len max_len (split_contents ds d)
              = Ok flattened /\
            extract_all flattened = Ok data /\
            read_features
              (save_datasets soundfile sample_len max_len data_path
                 [(TRAIN, ds_train ds); (VALIDATE, ds_validate ds); (TEST, ds_test ds)] fs).1
              data_path d = Some data)
    by (destruct d; assumption).
  destruct Hd as (flattened & data & Hf & Hx & Hr).
  exists flattened, data. split; [exact Hf|]. split; [exact Hr|].
  apply extract_all_spec. exact Hx.
Qed.

Lemma run_saves_the_three_splits_witness :
  exists ds,
    stratified_split (label_files toy_walk) (PyFloat float_0_70) (PyFloat float_0_20)
      [3; 1; 4; 1; 5; 9; 2; 6; 5]%nat = Ok (ds, []) /\
    forall d, exists flattened saved,
      _flatten_and_quantize_dataset toy_soundfile (PyInt 4) (PyInt 600) (split_contents ds d)
        = Ok flattened /\
      read_features
        (@read_files_and_extract_features toy_env _ _ true "/features"
           (PyFloat float_0_70) (PyFloat float_0_20)
           toy_walk toy_soundfile (PyInt 4) (PyInt 600) [3; 1; 4; 1; 5; 9; 2; 6; 5]%nat ∅).1
        "/features" d = Some saved /\
      Forall2 (fun segment item =>
                 fst item = fst segment /\
                 @extract_segment_features toy_env (snd segment) = Ok (snd item))
              flattened saved.
Proof.
  apply (@run_saves_the_three_splits toy_env _ _ "/features"
           (PyFloat float_0_70) (PyFloat float_0_20) toy_walk toy_soundfile
           (PyInt 4) (PyInt 600) [3; 1; 4; 1; 5; 9; 2; 6; 5]%nat [] ∅).
  vm_compute. reflexivity.
Defined.

Lemma features_files_exist_spec (fs : filesystem) (data_path : string) :
  features_files_exist fs data_path = true <->
  forall d, is_Some (read_features fs data_path d).
Proof.
  unfold features_files_exist, os_path_exists, read_features. cbn [forallb].
  rewrite !andb_true_iff, !bool_decide_eq_true. split.
  - intros (Htr & Hva & Hte & _) []; assumption.
  - intros Hall. repeat split; apply Hall.
Qed.

(** X23.  After a run that returned, with [overwrite] or without, the
    three feature files exist, so that a later run without [overwrite]
    returns at once: it changes no file and draws nothing, whatever the
    walk, the percentages and the audio files have become. *)
Theorem rerun_without_overwrite_does_nothing `{MelEnv} {G : Type} `{RandomGen G}
  (overwrite : bool) (data_path : string) (train_percentage validate_percentage : pynum)
  (walk : list (string * list string)) (soundfile : string -> result SoundFile)
  (sample_len max_len : pynum) (g g' : G) (fs : filesystem)
  (train_percentage' validate_percentage' : pynum)
  (walk' : list (string * list string)) (soundfile' : string -> result SoundFile)
  (sample_len' max_len' : pynum) (g2 : G) :
  (read_files_and_extract_features overwrite data_path train_percentage validate_percentage
     walk soundfile sample_len max_len g fs).2 = Ok g' ->
  features_files_exist
    (read_files_and_extract_features overwrite data_path train_percentage validate_percentage
       walk soundfile sample_len max_len g fs).1 data_path = true /\
  read_files_and_extract_features false data_path train_percentage' validate_percentage'
    walk' soundfile' sample_len' max_len' g2
    (read_files_and_extract_features overwrite data_path train_percentage validate_percentage
       walk soundfile sample_len max_len g fs).1 =
  ((read_files_and_extract_features overwrite data_path train_percentage validate_percentage
      walk soundfile sample_len max_len g fs).1, Ok g2).
Proof.
  intros Hrun.
  assert (Hex : features_files_exist
            (read_files_and_extract_features overwrite data_path train_percentage
               validate_percentage walk soundfile sample_len max_len g fs).1 data_path = true).
  { destruct (negb overwrite && features_files_exist fs data_path) eqn:Hc.
    - unfold read_files_and_extract_features. rewrite Hc. cbn [fst].
      apply andb_true_iff in Hc. apply Hc.
    - rewrite run_cases in Hrun |- * by exact Hc.
      destruct (stratified_split (label_files walk) train_percentage validate_percentage g)
        as [[ds g1]|e]; [|discriminate Hrun].
      cbv zeta in Hrun |- *. cbn [fst snd] in Hrun |- *.
      destruct ((save_datasets soundfile sample_len max_len data_path
                   [(TRAIN, ds_train ds); (VALIDATE, ds_validate ds); (TEST, ds_test ds)]
                   fs).2) as [[]|e] eqn:Es; [|discriminate Hrun].
      pose proof (save_datasets_returned soundfile sample_len max_len data_path _ fs
                    (dataset_types_NoDup _ _ _) Es) as Hall.
      rewrite !Forall_cons in Hall. destruct Hall as (Htr & Hva & Hte & _).
      cbn [fst snd] in Htr, Hva, Hte.
      apply features_files_exist_spec.
      intros [].
      + destruct Htr as (? & data & _ & _ & ->). eauto.
      + destruct Hva as (? & data & _ & _ & ->). eauto.
      + destruct Hte as (? & data & _ & _ & ->). eauto. }
  split; [exact Hex|].
  unfold read_files_and_extract_features at 1. rewrite Hex. reflexivity.
Qed.

Lemma rerun_without_overwrite_does_nothing_witness :
  let first :=
    @read_files_and_extract_features toy_env _ _ true "/features"
      (PyFloat float_0_70) (PyFloat float_0_20)
      toy_walk toy_soundfile (PyInt 4) (PyInt 600) [3; 1; 4; 1; 5; 9; 2; 6; 5]%nat ∅ in
  features_files_exist first.1 "/features" = true /\
  @read_files_and_extract_features toy_env _ _ false "/features"
    (PyFloat float_0_5) (PyFloat float_0_5) [] (fun _ => Raise FileNotFoundError)
    (PyInt 2) (PyInt 600) [7%nat] first.1 = (first.1, Ok [7%nat]).
Proof.
  intros first.
  apply (@rerun_without_overwrite_does_nothing toy_env _ _ true "/features"
           (PyFloat float_0_70) (PyFloat float_0_20) toy_walk toy_soundfile
           (PyInt 4) (PyInt 600) [3; 1; 4; 1; 5; 9; 2; 6; 5]%nat [] ∅).
  vm_compute. reflexivity.
Defined.




(** X25.  Whether it returns or raises, a run changes no path other than
    the three feature files; in particular it never creates or changes a
    backup file of one of them. *)
Theorem run_touches_only_feature_files `{MelEnv} {G : Type} `{RandomGen G}
  (overwrite : bool) (data_path : string) (train_percentage validate_percentage : pynum)
  (walk : list (string * list string)) (soundfile : string -> result SoundFile)
  (sample_len max_len : pynum) (g : G) (fs : filesystem) :
  (forall p, (forall d, p <> features_path data_path d) ->
     (read_files_and_extract_features overwrite data_path train_percentage
        validate_percentage walk soundfile sample_len max_len g fs).1 !! p = fs !! p) /\
  (forall d,
     (read_files_and_extract_features overwrite data_path train_percentage
        validate_percentage walk soundfile sample_len max_len g fs).1
       !! (features_path data_path d ++ "-old")%string
     = fs !! (features_path data_path d ++ "-old")%string).
Proof.
  assert (Hp : forall p, (forall d, p <> features_path data_path d) ->
     (read_files_and_extract_features overwrite data_path train_percentage
        validate_percentage walk soundfile sample_len max_len g fs).1 !! p = fs !! p).
  { intros p Hne.
    destruct (negb overwrite && features_files_exist fs data_path) eqn:Hc.
    - unfold read_files_and_extract_features. rewrite Hc. reflexivity.
    - rewrite run_cases by exact Hc.
      destruct (stratified_split (label_files walk) train_percentage validate_percentage g)
        as [[ds g1]|e]; [|reflexivity].
      cbv zeta. cbn [fst]. apply save_datasets_other. intros d _. apply Hne. }
  split; [exact Hp|].
  intros d. apply Hp. intros d'. apply backup_path_ne.
Qed.

